(** * DocuSpark AI: the Streamlit front end (app.py)

    A shallow embedding of [initialize_session_state], [process_documents]
    and [main].  One execution of the script is a computation over the
    Streamlit session state that may return, raise a Python exception, or
    stop through [st.rerun()]; it emits the ordered list of what it shows
    and of the collaborator methods it invokes.

    The classes PDFProcessor, EmbeddingManager, ChatManager and Config live
    in modules that app.py imports; their methods, and the [os.path]
    functions, are fields of the record [backend]. *)

From Stdlib Require Import ZArith List String Ascii Bool Lia.
Import ListNotations.
Local Open Scope Z_scope.

(** ** Python values used by app.py *)

(** Exceptions that derive from [Exception]; [str(e)] is kept as data. *)
Inductive exn : Type :=
| AttributeError (attr : string)
| OSError (path : string)
| LibraryError (msg : string).

(** The value of [hasattr(obj, name)] together with the attribute. *)
Inductive attribute (A : Type) : Type :=
| Missing
| Present (v : A).
Arguments Missing {A}.
Arguments Present {A} v.

(** An object of [st.file_uploader]: [file.name], the offset that
    [file.seek(0, 2); file.tell()] reports, and Streamlit's file id. *)
Record UploadedFile : Type := {
  upload_name : string;
  upload_size : Z;
  upload_id : nat
}.

(** An element of [files_to_process]: [isinstance(file, str)] or not. *)
Inductive file : Type :=
| Path (p : string)
| Upload (u : UploadedFile).

(** An entry of [st.session_state.messages], a dict with two string keys. *)
Record message : Type := {
  role : string;
  content : string
}.

(** [2 * 1024 * 1024 * 1024], the literal of lines 54 and 150. *)
Definition max_size : Z := 2 * 1024 * 1024 * 1024.

Definition no_documents_reply : string :=
  "Please upload and process PDF documents first!"%string.

(** [str.lower] on ASCII letters and [str.endswith]. *)
Definition lower_ascii (c : ascii) : ascii :=
  let n := nat_of_ascii c in
  if (Nat.leb 65 n && Nat.leb n 90)%bool then ascii_of_nat (n + 32) else c.

Fixpoint lower (s : string) : string :=
  match s with
  | EmptyString => EmptyString
  | String c r => String (lower_ascii c) (lower r)
  end.

Definition endswith (s suffix : string) : bool :=
  let n := String.length s in
  let m := String.length suffix in
  if Nat.leb m n then String.eqb (substring (n - m) m s) suffix else false.

(** Truth value of a Python list. *)
Definition truthy {A : Type} (l : list A) : bool :=
  match l with [] => false | _ :: _ => true end.

(** Texts given to [st.error] and [st.success].  Where the text is an
    f-string, the name and the byte count it formats are kept as data (the
    source shows the count divided into GB or MB with two or one
    decimals). *)
Inductive notice : Type :=
| Missing_api_key
| File_too_large (file_name : string) (file_size : Z)
| Error_processing (e : exn)
| Failed_embeddings
| Processed_chunks (n : nat)
| Invalid_pdf_path
| File_not_found
| Path_too_large (file_size : Z)
| File_found (file_name : string) (file_size : Z)
| Error_reading_file (e : exn)
| Chunks_in_memory (n : nat).

(** How one run of a Python block ends. [Rerun] is [st.rerun()], which
    does not derive from [Exception]. *)
Inductive outcome (A : Type) : Type :=
| Return (a : A)
| Raise (e : exn)
| Rerun.
Arguments Return {A} a.
Arguments Raise {A} e.
Arguments Rerun {A}.

Definition of_sum {A : Type} (r : exn + A) : outcome A :=
  match r with inl e => Raise e | inr a => Return a end.

Section App.

(** Chunks ([langchain.schema.Document]), the two managers and the
    retriever object are opaque to app.py. *)
Context {Doc EM CM Retr : Type}.

(** What one run shows and which collaborator methods it invokes.
    Layout calls (header, markdown, spinner) are not recorded. *)
Inductive event : Type :=
| St_error (m : notice)
| St_success (m : notice)
| Chat_write (who text : string)
| Call_process_document (f : file)
| Call_create_embeddings (docs : list Doc)
| Call_set_retriever
| Call_search (query : string)
| Call_generate_response (query : string) (docs : list Doc)
| Call_reset_conversation
| Call_clear_embeddings.

(** The imported collaborators. A method returns the object's next state
    and either its value or the exception it raised. *)
Record backend : Type := {
  Config_is_valid : bool;
  new_EmbeddingManager : EM;
  new_ChatManager : CM;
  process_document : file -> exn + list Doc;
  create_embeddings : EM -> list Doc -> EM * (exn + bool);
  retriever : EM -> attribute (option Retr);
  search : EM -> string -> EM * (exn + list Doc);
  clear_embeddings : attribute (EM -> EM * (exn + unit));
  set_retriever : CM -> option Retr -> CM * (exn + unit);
  generate_response : CM -> string -> list Doc -> CM * (exn + string);
  reset_conversation : CM -> CM * (exn + unit);
  os_path_exists : string -> bool;
  os_path_getsize : string -> exn + Z;
  os_path_basename : string -> string;
  open_rb : string -> exn + unit
}.

(** [st.session_state]: a key is absent until it is assigned. *)
Record session_state : Type := {
  processor : option unit;
  embedding_manager : option EM;
  chat_manager : option CM;
  messages : option (list message);
  documents : option (list Doc);
  large_files : option (list string)
}.

Definition set_processor (v : unit) (s : session_state) : session_state :=
  {| processor := Some v; embedding_manager := embedding_manager s;
     chat_manager := chat_manager s; messages := messages s;
     documents := documents s; large_files := large_files s |}.

Definition set_embedding_manager (v : EM) (s : session_state) : session_state :=
  {| processor := processor s; embedding_manager := Some v;
     chat_manager := chat_manager s; messages := messages s;
     documents := documents s; large_files := large_files s |}.

Definition set_chat_manager (v : CM) (s : session_state) : session_state :=
  {| processor := processor s; embedding_manager := embedding_manager s;
     chat_manager := Some v; messages := messages s;
     documents := documents s; large_files := large_files s |}.

Definition set_messages (v : list message) (s : session_state) : session_state :=
  {| processor := processor s; embedding_manager := embedding_manager s;
     chat_manager := chat_manager s; messages := Some v;
     documents := documents s; large_files := large_files s |}.

Definition set_documents (v : list Doc) (s : session_state) : session_state :=
  {| processor := processor s; embedding_manager := embedding_manager s;
     chat_manager := chat_manager s; messages := messages s;
     documents := Some v; large_files := large_files s |}.

Definition set_large_files (v : list string) (s : session_state) : session_state :=
  {| processor := processor s; embedding_manager := embedding_manager s;
     chat_manager := chat_manager s; messages := messages s;
     documents := documents s; large_files := Some v |}.

(** ** The script monad *)

Definition M (A : Type) : Type :=
  session_state -> outcome A * session_state * list event.

Definition ret {A : Type} (a : A) : M A := fun s => (Return a, s, []).

Definition bind {A B : Type} (m : M A) (k : A -> M B) : M B := fun s =>
  match m s with
  | (Return a, s1, l1) =>
      match k a s1 with (r, s2, l2) => (r, s2, l1 ++ l2) end
  | (Raise e, s1, l1) => (Raise e, s1, l1)
  | (Rerun, s1, l1) => (Rerun, s1, l1)
  end.

(** [try: m except Exception as e: h e]. *)
Definition try_except {A : Type} (m : M A) (h : exn -> M A) : M A := fun s =>
  match m s with
  | (Raise e, s1, l1) =>
      match h e s1 with (r, s2, l2) => (r, s2, l1 ++ l2) end
  | other => other
  end.

Definition emit (e : event) : M unit := fun s => (Return tt, s, [e]).
Definition st_error (m : notice) : M unit := emit (St_error m).
Definition st_success (m : notice) : M unit := emit (St_success m).
Definition st_rerun {A : Type} : M A := fun s => (Rerun, s, []).
Definition modify (f : session_state -> session_state) : M unit :=
  fun s => (Return tt, f s, []).

(** [st.session_state.<key>]: AttributeError when the key is absent. *)
Definition getattr {A : Type} (key : string)
    (field : session_state -> option A) : M A := fun s =>
  match field s with
  | Some v => (Return v, s, [])
  | None => (Raise (AttributeError key), s, [])
  end.

Definition has_key {A : Type} (field : session_state -> option A) : M bool :=
  fun s => (Return (match field s with Some _ => true | None => false end), s, []).

(** The value or the exception of a call that has no state of its own. *)
Definition lift {A : Type} (r : exn + A) : M A := fun s => (of_sum r, s, []).

Definition from_attribute {A : Type} (name : string) (a : attribute A) : M A :=
  match a with
  | Present v => ret v
  | Missing => fun s => (Raise (AttributeError name), s, [])
  end.


Notation "x <- c ;; k" := (bind c (fun x => k))
  (at level 61, c at next level, right associativity).
Notation "c ;; k" := (bind c (fun _ => k))
  (at level 61, right associativity).

Variable b : backend.

(** A method call on [st.session_state.embedding_manager]: the manager is
    looked up, the call is recorded, the manager keeps its new state. *)
Definition call_em {A : Type} (ev : event) (method : EM -> EM * (exn + A)) : M A :=
  fun s =>
    match embedding_manager s with
    | None => (Raise (AttributeError "embedding_manager"), s, [])
    | Some em =>
        let r := method em in
        (of_sum (snd r), set_embedding_manager (fst r) s, [ev])
    end.

(** A method call on [st.session_state.chat_manager]. *)
Definition call_cm {A : Type} (ev : event) (method : CM -> CM * (exn + A)) : M A :=
  fun s =>
    match chat_manager s with
    | None => (Raise (AttributeError "chat_manager"), s, [])
    | Some cm =>
        let r := method cm in
        (of_sum (snd r), set_chat_manager (fst r) s, [ev])
    end.

(** [st.session_state.processor.process_document(f)]. *)
Definition call_process_document (f : file) : M (list Doc) :=
  _ <- getattr "processor" processor ;;
  emit (Call_process_document f) ;;
  lift (process_document b f).

(** ** initialize_session_state (lines 12-37) *)

Definition initialize_rest : M bool :=
  has_messages <- has_key messages ;;
  (if negb has_messages then modify (set_messages []) else ret tt) ;;
  has_documents <- has_key documents ;;
  (if negb has_documents then modify (set_documents []) else ret tt) ;;
  ret true.

Definition initialize_session_state : M bool :=
  has_processor <- has_key processor ;;
  (if negb has_processor then modify (set_processor tt) else ret tt) ;;
  has_embedding_manager <- has_key embedding_manager ;;
  (if negb has_embedding_manager
   then modify (set_embedding_manager (new_EmbeddingManager b)) else ret tt) ;;
  has_chat_manager <- has_key chat_manager ;;
  if negb has_chat_manager then
    if negb (Config_is_valid b) then
      (st_error Missing_api_key ;; ret false)
    else
      (modify (set_chat_manager (new_ChatManager b)) ;; initialize_rest)
  else initialize_rest.

(** ** process_documents (lines 39-103) *)

(** The [for file in files_to_process] loop with its accumulator.
    [inl v] is a [return v] from inside the loop, [inr all_documents] the
    loop running to its end. *)
Fixpoint process_files (files : list file) (all_documents : list Doc)
  : M (bool + list Doc) :=
  match files with
  | [] => ret (inr all_documents)
  | Path p :: rest =>
      file_size <- lift (os_path_getsize b p) ;;
      let file_name := os_path_basename b p in
      if file_size >? max_size then
        (st_error (File_too_large file_name file_size) ;; ret (inl false))
      else
        (_ <- lift (open_rb b p) ;;
         documents <- call_process_document (Path p) ;;
         process_files rest (all_documents ++ documents))
  | Upload u :: rest =>
      let file_size := upload_size u in
      if file_size >? max_size then
        (st_error (File_too_large (upload_name u) file_size) ;; ret (inl false))
      else
        (documents <- call_process_document (Upload u) ;;
         process_files rest (all_documents ++ documents))
  end.

Definition process_documents (files_to_process : list file) : M bool :=
  try_except
    (r <- process_files files_to_process [] ;;
     match r with
     | inl v => ret v
     | inr all_documents =>
         modify (set_documents all_documents) ;;
         success <- call_em (Call_create_embeddings all_documents)
                      (fun em => create_embeddings b em all_documents) ;;
         if success : bool then
           (_ <- getattr "chat_manager" chat_manager ;;
            em <- getattr "embedding_manager" embedding_manager ;;
            r <- from_attribute "retriever" (retriever b em) ;;
            call_cm Call_set_retriever (fun cm => set_retriever b cm r) ;;
            st_success (Processed_chunks (List.length all_documents)) ;;
            ret true)
         else
           (st_error Failed_embeddings ;; ret false)
     end)
    (fun e => st_error (Error_processing e) ;; ret false).

(** ** main (lines 105-222) *)

(** The widget values of one run of the script. *)
Record ui_input : Type := {
  uploaded_files : list UploadedFile;
  file_path : string;
  process_button : bool;
  clear_conversation_button : bool;
  clear_file_chunks_button : bool;
  chat_input : option string
}.

(** Lines 141-159: the path typed into the text input. *)
Definition validate_file_path (file_path : string) : M unit :=
  if String.eqb file_path "" then ret tt
  else if negb (endswith (lower file_path) ".pdf") then
    st_error Invalid_pdf_path
  else if negb (os_path_exists b file_path) then
    st_error File_not_found
  else
    try_except
      (file_size <- lift (os_path_getsize b file_path) ;;
       if file_size >? 2 * 1024 * 1024 * 1024 then
         st_error (Path_too_large file_size)
       else
         (st_success (File_found (os_path_basename b file_path) file_size) ;;
          has_large_files <- has_key large_files ;;
          (if negb has_large_files then modify (set_large_files []) else ret tt) ;;
          l <- getattr "large_files" large_files ;;
          modify (set_large_files (l ++ [file_path]))))
      (fun e => st_error (Error_reading_file e)).

(** Lines 162-166. *)
Definition all_files_to_process (uploaded : list UploadedFile) : M (list file) :=
  fun s =>
    let from_uploader := if truthy uploaded then map Upload uploaded else [] in
    let from_paths :=
      match large_files s with
      | Some l => if truthy l then map Path l else []
      | None => []
      end in
    (Return (from_uploader ++ from_paths), s, []).

(** Lines 177-180: the Clear Conversation button. *)
Definition clear_conversation : M unit :=
  modify (set_messages []) ;;
  call_cm Call_reset_conversation (reset_conversation b) ;;
  st_rerun.

(** Lines 182-188: the Clear File Chunks button. *)
Definition clear_file_chunks : M unit :=
  modify (set_documents []) ;;
  has_large_files <- has_key large_files ;;
  (if has_large_files then modify (set_large_files []) else ret tt) ;;
  _ <- getattr "embedding_manager" embedding_manager ;;
  (match clear_embeddings b with
   | Present method => call_em Call_clear_embeddings method
   | Missing => ret tt
   end) ;;
  st_rerun.

(** Lines 117-188: the sidebar. *)
Definition sidebar (ui : ui_input) : M unit :=
  validate_file_path (file_path ui) ;;
  files <- all_files_to_process (uploaded_files ui) ;;
  (if truthy files then
     if process_button ui then (_ <- process_documents files ;; ret tt)
     else ret tt
   else ret tt) ;;
  docs <- getattr "documents" documents ;;
  if truthy docs then
    (st_success (Chunks_in_memory (List.length docs)) ;;
     (if clear_conversation_button ui then clear_conversation else ret tt) ;;
     (if clear_file_chunks_button ui then clear_file_chunks else ret tt))
  else ret tt.

(** Lines 191-193. *)
Definition display_history : M unit :=
  l <- getattr "messages" messages ;;
  fun s => (Return tt, s, map (fun m => Chat_write (role m) (content m)) l).

Definition append_message (m : message) : M unit :=
  l <- getattr "messages" messages ;;
  modify (set_messages (l ++ [m])).

(** Lines 209-219: the retriever chain or the manual search. *)
Definition respond (query : string) : M string :=
  em <- getattr "embedding_manager" embedding_manager ;;
  match retriever b em with
  | Present (Some _) =>
      call_cm (Call_generate_response query [])
        (fun cm => generate_response b cm query [])
  | _ =>
      relevant_docs <- call_em (Call_search query) (fun em => search b em query) ;;
      call_cm (Call_generate_response query relevant_docs)
        (fun cm => generate_response b cm query relevant_docs)
  end.

(** Lines 196-222: the chat input. *)
Definition chat (chat_input : option string) : M unit :=
  match chat_input with
  | None => ret tt
  | Some query =>
      if String.eqb query "" then ret tt
      else
        (append_message {| role := "user"; content := query |} ;;
         emit (Chat_write "user" query) ;;
         docs <- getattr "documents" documents ;;
         if negb (truthy docs) then
           (emit (Chat_write "assistant" no_documents_reply) ;;
            append_message
              {| role := "assistant"; content := no_documents_reply |})
         else
           (response <- respond query ;;
            emit (Chat_write "assistant" response) ;;
            append_message {| role := "assistant"; content := response |}))
  end.

Definition main (ui : ui_input) : M unit :=
  ok <- initialize_session_state ;;
  if negb ok then ret tt
  else
    (sidebar ui ;;
     display_history ;;
     chat (chat_input ui)).

(** Successive runs of the script on one session: the state after the
    last run and the events of each run. *)
Fixpoint runs (uis : list ui_input) (s : session_state)
  : session_state * list (list event) :=
  match uis with
  | [] => (s, [])
  | ui :: rest =>
      match main ui s with
      | (_, s1, l1) =>
          match runs rest s1 with (s2, ls) => (s2, l1 :: ls) end
      end
  end.

(** ** Vocabulary of the statements *)

Definition result_of {A : Type} (x : outcome A * session_state * list event)
  : outcome A := fst (fst x).
Definition state_of {A : Type} (x : outcome A * session_state * list event)
  : session_state := snd (fst x).
Definition trace_of {A : Type} (x : outcome A * session_state * list event)
  : list event := snd x.

(** The size that the check of [process_documents] compares with the cap,
    and the name it reports. *)
Definition file_size (f : file) : exn + Z :=
  match f with
  | Path p => os_path_getsize b p
  | Upload u => inr (upload_size u)
  end.

Definition file_name (f : file) : string :=
  match f with
  | Path p => os_path_basename b p
  | Upload u => upload_name u
  end.

Definition opens (f : file) : bool :=
  match f with
  | Path p => match open_rb b p with inr _ => true | inl _ => false end
  | Upload _ => true
  end.

(** The loop body goes through for [f]: the size is within the cap, the
    file opens and [process_document] returns its chunks. *)
Definition ingests (s : session_state) (f : file) : bool :=
  match processor s, file_size f, process_document b f with
  | Some _, inr sz, inr _ => negb (sz >? max_size) && opens f
  | _, _, _ => false
  end.

(** The chunks that [process_document] returns for a batch, in order. *)
Definition extracted (files : list file) : list Doc :=
  flat_map (fun f => match process_document b f with
                     | inr docs => docs
                     | inl _ => []
                     end) files.

(** [st.session_state.large_files] read as the sidebar reads it: an absent
    key and an empty list give no files. *)
Definition large_files_list (s : session_state) : list string :=
  match large_files s with Some l => l | None => [] end.

(** A call into extraction, embedding, retrieval or generation. *)
Definition is_pipeline_call (e : event) : bool :=
  match e with
  | Call_process_document _ | Call_create_embeddings _
  | Call_search _ | Call_generate_response _ _ => true
  | _ => false
  end.

(** Every key that [initialize_session_state] assigns is present. *)
Definition initialized (s : session_state) : bool :=
  match processor s, embedding_manager s, chat_manager s,
        messages s, documents s with
  | Some _, Some _, Some _, Some _, Some _ => true
  | _, _, _, _, _ => false
  end.

(** The chunks that [respond] hands to [generate_response]: none through
    the retriever chain, the result of [search] otherwise. *)
Definition retrieved (s : session_state) (query : string) : option (list Doc) :=
  match embedding_manager s with
  | None => None
  | Some em =>
      match retriever b em with
      | Present (Some _) => Some []
      | _ =>
          match snd (search b em query) with
          | inr docs => Some docs
          | inl _ => None
          end
      end
  end.

(** The generation call of this turn raises [e]. *)
Definition generation_fails (s : session_state) (query : string) (e : exn)
  : Prop :=
  exists (cm : CM) (docs : list Doc),
    chat_manager s = Some cm /\
    retrieved s query = Some docs /\
    snd (generate_response b cm query docs) = inl e.

Definition user_turn (query : string) : message :=
  {| role := "user"; content := query |}.

Definition assistant_turn (text : string) : message :=
  {| role := "assistant"; content := text |}.

(** What the sidebar and the history loop show when no widget of the
    sidebar is used. *)
Definition idle_events (s : session_state) : list event :=
  match documents s, messages s with
  | Some docs, Some l =>
      (if truthy docs then [St_success (Chunks_in_memory (List.length docs))]
       else []) ++
      map (fun m => Chat_write (role m) (content m)) l
  | _, _ => []
  end.

(** [m] changes [st.session_state.large_files] only along [Rl]. *)
Definition preserves (Rl : option (list string) -> option (list string) -> Prop)
    {A : Type} (m : M A) : Prop :=
  forall s, Rl (large_files s) (large_files (state_of (m s))).

(** The list after holds the list before as a prefix. *)
Definition extends (before after : option (list string)) : Prop :=
  exists suffix : list string,
    match after with Some l => l | None => [] end =
    match before with Some l => l | None => [] end ++ suffix.

(** [m] moves the part [proj] of the session only along [R]. *)
Definition keeps {X A : Type} (proj : session_state -> X)
    (R : X -> X -> Prop) (m : M A) : Prop :=
  forall s, R (proj s) (proj (state_of (m s))).

(** Every event of [m] satisfies [P]. *)
Definition emits_only {A : Type} (P : event -> Prop) (m : M A) : Prop :=
  forall s, Forall P (trace_of (m s)).

(** The history and the chunk collection read as lists. *)
Definition messages_list (s : session_state) : list message :=
  match messages s with Some l => l | None => [] end.

Definition documents_list (s : session_state) : list Doc :=
  match documents s with Some l => l | None => [] end.

(** A call that [process_documents] makes. *)
Definition is_ingestion_call (e : event) : bool :=
  match e with
  | Call_process_document _ | Call_create_embeddings _
  | Call_set_retriever => true
  | _ => false
  end.

(** A call into retrieval or generation. *)
Definition is_query_call (e : event) : bool :=
  match e with
  | Call_search _ | Call_generate_response _ _ => true
  | _ => false
  end.

(** The value a key has after [initialize_session_state] went through. *)
Definition or_default {A : Type} (current : option A) (default : A) : A :=
  match current with Some v => v | None => default end.

End App.

(** ** The vector index and the collaborators of the examples *)

(** Modelled from the spec: the VectorIndex behind EmbeddingManager, whose
    module (src.embedding) is not among the sources.  Section 4.2: insert
    takes one vector per chunk, appends to the existing index and is
    all-or-nothing (a failure of the embedding computation inserts
    nothing; a count mismatch is a DimensionMismatchError); clear removes
    every chunk and vector.  [embed] is the Embedder boundary of section 6:
    a sequence of vectors, or a failure. *)
Module VectorIndex.

Definition vector : Type := Z.
Definition t : Type := list (string * vector).

Definition insert (embed : list string -> option (list vector))
    (ix : t) (chunks : list string) : t * (exn + bool) :=
  match embed chunks with
  | Some vs =>
      if Nat.eqb (List.length vs) (List.length chunks)
      then (ix ++ combine chunks vs, inr true)
      else (ix, inl (LibraryError "DimensionMismatchError"))
  | None => (ix, inr false)
  end.

Definition clear (ix : t) : t * (exn + unit) := ([], inr tt).

Definition size (ix : t) : nat := List.length ix.

End VectorIndex.

(** One concrete set of collaborators: chunks are strings, the embedding
    manager is the vector index, the chat manager has no state. *)
Record scenario : Type := {
  credential : bool;
  extract : file -> exn + list string;
  embed : list string -> option (list Z);
  answer : string -> exn + string;
  getsize : string -> exn + Z
}.

Definition scenario_backend (sc : scenario)
  : @backend string VectorIndex.t unit unit := {|
  Config_is_valid := credential sc;
  new_EmbeddingManager := [];
  new_ChatManager := tt;
  process_document := extract sc;
  create_embeddings := VectorIndex.insert (embed sc);
  retriever := fun ix => Present (if truthy ix then Some tt else None);
  search := fun ix _ => (ix, inr (map fst ix));
  clear_embeddings := Present VectorIndex.clear;
  set_retriever := fun cm _ => (cm, inr tt);
  generate_response := fun cm query _ => (cm, answer sc query);
  reset_conversation := fun cm => (cm, inr tt);
  os_path_exists := fun p => match getsize sc p with inr _ => true | inl _ => false end;
  os_path_getsize := getsize sc;
  os_path_basename := fun p => p;
  open_rb := fun p => match getsize sc p with inr _ => inr tt | inl e => inl e end
|}.

(** A session right after a successful [initialize_session_state]. *)
Definition fresh_session : @session_state string VectorIndex.t unit := {|
  processor := Some tt;
  embedding_manager := Some [];
  chat_manager := Some tt;
  messages := Some [];
  documents := Some [];
  large_files := None
|}.

Definition GiB : Z := 1024 * 1024 * 1024.

Definition report_pdf : UploadedFile :=
  {| upload_name := "report.pdf"; upload_size := 4096; upload_id := 1 |}.

Definition huge_pdf : UploadedFile :=
  {| upload_name := "huge.pdf"; upload_size := 3 * GiB; upload_id := 2 |}.

Definition edge_pdf : UploadedFile :=
  {| upload_name := "edge.pdf"; upload_size := 2 * GiB; upload_id := 3 |}.

(** Every upload yields one chunk named after it; the path "/data/big.pdf"
    is a file of exactly 2 GiB, "/data/huge.pdf" one of 3 GiB. *)
Definition working : scenario := {|
  credential := true;
  extract := fun f =>
    match f with
    | Upload u => inr [upload_name u]
    | Path p => inr [p]
    end;
  embed := fun chunks => Some (map (fun _ => 1) chunks);
  answer := fun _ => inr "Paris."%string;
  getsize := fun p =>
    if String.eqb p "/data/big.pdf" then inr (2 * GiB)
    else if String.eqb p "/data/huge.pdf" then inr (3 * GiB)
    else inl (OSError p)
|}.

(** The same collaborators with the Embedder out of reach. *)
Definition embedder_down : scenario := {|
  credential := true;
  extract := extract working;
  embed := fun _ => None;
  answer := answer working;
  getsize := getsize working
|}.

(** The same collaborators with a generation call that raises. *)
Definition generator_down : scenario := {|
  credential := true;
  extract := extract working;
  embed := embed working;
  answer := fun _ => inl (LibraryError "GenerationError");
  getsize := getsize working
|}.

(** The same collaborators without the API key. *)
Definition no_credential : scenario := {|
  credential := false;
  extract := extract working;
  embed := embed working;
  answer := answer working;
  getsize := getsize working
|}.

(** A session that already holds one chunk and its vector. *)
Definition loaded_session : @session_state string VectorIndex.t unit := {|
  processor := Some tt;
  embedding_manager := Some [("old.pdf"%string, 1)];
  chat_manager := Some tt;
  messages := Some [];
  documents := Some ["old.pdf"%string];
  large_files := None
|}.

(** A session that holds one chunk, its vector and a retriever. *)
Definition session_with_report : @session_state string VectorIndex.t unit :=
  {| processor := Some tt;
     embedding_manager := Some [("report.pdf"%string, 1)];
     chat_manager := Some tt;
     messages := Some [];
     documents := Some ["report.pdf"%string];
     large_files := None |}.

(** A session in the middle of a conversation about one document, with
    one entered path. *)
Definition session_in_conversation
  : @session_state string VectorIndex.t unit :=
  {| processor := Some tt;
     embedding_manager := Some [("/data/big.pdf"%string, 1)];
     chat_manager := Some tt;
     messages := Some [{| role := "user"; content := "What?" |};
                       {| role := "assistant"; content := "Paris." |}];
     documents := Some ["/data/big.pdf"%string];
     large_files := Some ["/data/big.pdf"%string] |}.

(** One run in which Clear Conversation is pressed. *)
Definition press_clear_conversation : ui_input := {|
  uploaded_files := [];
  file_path := "";
  process_button := false;
  clear_conversation_button := true;
  clear_file_chunks_button := false;
  chat_input := None
|}.

(** One run in which the path is still in the text input and Process
    Documents is pressed. *)
Definition reprocess_entered_path : ui_input := {|
  uploaded_files := [];
  file_path := "/data/big.pdf";
  process_button := true;
  clear_conversation_button := false;
  clear_file_chunks_button := false;
  chat_input := None
|}.

(** A session before its first run. *)
Definition empty_session : @session_state string VectorIndex.t unit := {|
  processor := None;
  embedding_manager := None;
  chat_manager := None;
  messages := None;
  documents := None;
  large_files := None
|}.

(** One run in which a PDF is uploaded and Process Documents is pressed. *)
Definition upload_and_process : ui_input := {|
  uploaded_files := [report_pdf];
  file_path := "";
  process_button := true;
  clear_conversation_button := false;
  clear_file_chunks_button := false;
  chat_input := None
|}.

(** One run in which only a question is typed. *)
Definition ask (query : string) : ui_input := {|
  uploaded_files := [];
  file_path := "";
  process_button := false;
  clear_conversation_button := false;
  clear_file_chunks_button := false;
  chat_input := Some query
|}.

(** The test of lines 141-142 on an entered path. *)
Definition is_pdf_path (p : string) : bool :=
  negb (String.eqb p "") && endswith (lower p) ".pdf".

(** One run in which Clear File Chunks is pressed. *)
Definition press_clear_file_chunks : ui_input := {|
  uploaded_files := [];
  file_path := "";
  process_button := false;
  clear_conversation_button := false;
  clear_file_chunks_button := true;
  chat_input := None
|}.

(** The same collaborators with a PDF reader that rejects every file. *)
Definition reader_down : scenario := {|
  credential := true;
  extract := fun _ => inl (LibraryError "PdfReadError");
  embed := embed working;
  answer := answer working;
  getsize := getsize working
|}.

(** The same collaborators with a PDF reader that fails on the upload
    with file id 3. *)
Definition corrupt_edge : scenario := {|
  credential := true;
  extract := fun f =>
    match f with
    | Upload u =>
        if Nat.eqb (upload_id u) 3 then inl (LibraryError "PdfReadError")
        else inr [upload_name u]
    | Path p => inr [p]
    end;
  embed := embed working;
  answer := answer working;
  getsize := getsize working
|}.

(** Collaborators without a retriever attribute set and with a [search]
    that raises. *)
Definition search_down_backend : @backend string VectorIndex.t unit unit := {|
  Config_is_valid := true;
  new_EmbeddingManager := [];
  new_ChatManager := tt;
  process_document := extract working;
  create_embeddings := VectorIndex.insert (embed working);
  retriever := fun _ => Present None;
  search := fun ix _ => (ix, inl (LibraryError "EmbeddingUnavailableError"));
  clear_embeddings := Missing;
  set_retriever := fun cm _ => (cm, inr tt);
  generate_response := fun cm query _ => (cm, answer working query);
  reset_conversation := fun cm => (cm, inr tt);
  os_path_exists := fun p =>
    match getsize working p with inr _ => true | inl _ => false end;
  os_path_getsize := getsize working;
  os_path_basename := fun p => p;
  open_rb := fun p =>
    match getsize working p with inr _ => inr tt | inl e => inl e end
|}.

(** One run in which Process Documents is pressed without any file. *)
Definition press_process_only : ui_input := {|
  uploaded_files := [];
  file_path := "";
  process_button := true;
  clear_conversation_button := false;
  clear_file_chunks_button := false;
  chat_input := None
|}.

(** One run in which nothing is pressed and nothing is typed. *)
Definition idle_rerun : ui_input := {|
  uploaded_files := [];
  file_path := "";
  process_button := false;
  clear_conversation_button := false;
  clear_file_chunks_button := false;
  chat_input := None
|}.

(** One run in which both clear buttons are held down and a question is
    typed. *)
Definition press_both_clear_buttons (query : string) : ui_input := {|
  uploaded_files := [];
  file_path := "";
  process_button := false;
  clear_conversation_button := true;
  clear_file_chunks_button := true;
  chat_input := Some query
|}.

(** * Properties *)

Section Properties.

Context {Doc EM CM Retr : Type}.
Variable b : @backend Doc EM CM Retr.

Let state : Type := @session_state Doc EM CM.
Let trace : Type := list (@event Doc).

(** ** The loop of process_documents *)

Local Arguments Z.gtb : simpl never.

Ltac unfold_script :=
  unfold call_process_document, st_error, st_success, emit, lift, ret,
    getattr, has_key, modify, from_attribute, call_em, call_cm, bind,
    try_except, of_sum, result_of, state_of, trace_of in *.

(** One iteration on a file that goes through: the call is recorded and
    the loop continues with the chunks added. *)
Lemma process_files_ingests (f : file) (rest : list file) (acc : list Doc)
    (s : state) :
  ingests b s f = true ->
  exists docs, process_document b f = inr docs /\
    process_files b (f :: rest) acc s =
      (result_of (process_files b rest (acc ++ docs) s),
       state_of (process_files b rest (acc ++ docs) s),
       Call_process_document f :: trace_of (process_files b rest (acc ++ docs) s)).
Proof.
  unfold ingests, opens, file_size. intros H.
  destruct (processor s) as [pr|] eqn:Hp; [|discriminate].
  destruct f as [p|u]; simpl process_files; unfold_script.
  - destruct (os_path_getsize b p) as [e|sz]; [discriminate|].
    destruct (process_document b (Path p)) as [e|docs] eqn:Hd; [discriminate|].
    destruct (sz >? max_size); [discriminate|].
    destruct (open_rb b p) as [e|[]]; [discriminate|].
    exists docs. split; [reflexivity|]. simpl. rewrite Hp. simpl.
    destruct (process_files b rest (acc ++ docs) s) as [[r s'] tr]. reflexivity.
  - destruct (process_document b (Upload u)) as [e|docs] eqn:Hd; [discriminate|].
    destruct (upload_size u >? max_size); [discriminate|].
    exists docs. split; [reflexivity|]. simpl. rewrite Hp. simpl.
    destruct (process_files b rest (acc ++ docs) s) as [[r s'] tr]. reflexivity.
Qed.

(** One iteration on a file over the cap: the error is shown and the
    function returns False; nothing else happens. *)
Lemma process_files_oversize (f : file) (rest : list file) (acc : list Doc)
    (s : state) (sz : Z) :
  file_size b f = inr sz -> sz > max_size ->
  process_files b (f :: rest) acc s =
    (Return (inl false), s, [St_error (File_too_large (file_name b f) sz)]).
Proof.
  intros Hsz Hgt. apply Z.gtb_gt in Hgt.
  destruct f as [p|u]; simpl in Hsz; simpl process_files; unfold_script.
  - rewrite Hsz. simpl. rewrite Hgt. reflexivity.
  - injection Hsz as ->. rewrite Hgt. reflexivity.
Qed.

(** One iteration on a file that does not go through: the loop ends
    there, with [return False] or an exception, and the trace has at most
    the error of the size check or the call that raised. *)
Lemma process_files_stops (f : file) (rest : list file) (acc : list Doc)
    (s : state) :
  ingests b s f = false ->
  exists r tr, process_files b (f :: rest) acc s = (r, s, tr) /\
    (r = Return (inl false) \/ exists e, r = Raise e) /\
    (tr = [] \/
     (tr = [Call_process_document f] /\
      exists sz, file_size b f = inr sz /\ sz <= max_size) \/
     exists sz, file_size b f = inr sz /\ sz > max_size /\
       tr = [St_error (File_too_large (file_name b f) sz)]).
Proof.
  assert (stop : forall (r : outcome (bool + list Doc)) (tr : trace),
    (r = Return (inl false) \/ exists e, r = Raise e) ->
    (tr = [] \/
     (tr = [Call_process_document f] /\
      exists sz, file_size b f = inr sz /\ sz <= max_size) \/
     exists sz, file_size b f = inr sz /\ sz > max_size /\
       tr = [St_error (File_too_large (file_name b f) sz)]) ->
    exists r' tr', (r, s, tr) = (r', s, tr') /\
      (r' = Return (inl false) \/ exists e, r' = Raise e) /\
      (tr' = [] \/
       (tr' = [Call_process_document f] /\
        exists sz, file_size b f = inr sz /\ sz <= max_size) \/
       exists sz, file_size b f = inr sz /\ sz > max_size /\
         tr' = [St_error (File_too_large (file_name b f) sz)])).
  { intros r tr Hr Ht. exists r, tr. auto. }
  unfold ingests, opens. intros H.
  destruct f as [p|u]; simpl process_files; simpl file_size in *;
    simpl file_name in *; unfold_script.
  - destruct (os_path_getsize b p) as [e|sz] eqn:Hsz; simpl.
    { apply stop; eauto. }
    destruct (sz >? max_size) eqn:Hgt; simpl.
    { apply Z.gtb_gt in Hgt. apply stop; [now left|].
      right. right. exists sz. auto. }
    destruct (open_rb b p) as [e|[]]; simpl; [apply stop; eauto|].
    destruct (processor s); simpl; [|apply stop; eauto].
    destruct (process_document b (Path p)) as [e|docs]; simpl;
      [|discriminate].
    apply stop; [eauto|]. right. left. split; [reflexivity|].
    exists sz. split; [reflexivity|].
    rewrite Z.gtb_ltb in Hgt. apply Z.ltb_ge in Hgt. exact Hgt.
  - destruct (upload_size u >? max_size) eqn:Hgt; simpl.
    { apply Z.gtb_gt in Hgt. apply stop; [now left|].
      right. right. exists (upload_size u). auto. }
    destruct (processor s); simpl; [|apply stop; eauto].
    destruct (process_document b (Upload u)) as [e|docs]; simpl;
      [|discriminate].
    apply stop; [eauto|]. right. left. split; [reflexivity|].
    exists (upload_size u). split; [reflexivity|].
    rewrite Z.gtb_ltb in Hgt. apply Z.ltb_ge in Hgt. exact Hgt.
Qed.

Lemma ingests_within_cap (s : state) (f : file) (sz : Z) :
  ingests b s f = true -> file_size b f = inr sz -> sz <= max_size.
Proof.
  unfold ingests. intros H Hsz. rewrite Hsz in H.
  destruct (processor s); [|discriminate].
  destruct (process_document b f); [discriminate|].
  apply andb_prop in H. destruct H as [H _].
  apply negb_true_iff in H. rewrite Z.gtb_ltb in H.
  apply Z.ltb_ge in H. exact H.
Qed.

Lemma triple_eta {A : Type} (x : outcome A * state * trace) :
  (result_of x, state_of x, trace_of x) = x.
Proof. destruct x as [[r s] tr]. reflexivity. Qed.

(** The loop reads the session and never writes it. *)
Lemma process_files_state (files : list file) :
  forall (acc : list Doc) (s : state),
    state_of (process_files b files acc s) = s.
Proof.
  induction files as [|f rest IH]; intros acc s; [reflexivity|].
  destruct (ingests b s f) eqn:Hf.
  - destruct (process_files_ingests f rest acc s Hf) as (docs & _ & ->).
    apply IH.
  - destruct (process_files_stops f rest acc s Hf) as (r & tr & -> & _).
    reflexivity.
Qed.

(** A prefix of files that all go through contributes its calls and its
    chunks, and the loop goes on with the rest of the batch. *)
Lemma process_files_app (pre : list file) :
  forall (rest : list file) (acc : list Doc) (s : state),
    Forall (fun g => ingests b s g = true) pre ->
    process_files b (pre ++ rest) acc s =
      (result_of (process_files b rest (acc ++ extracted b pre) s),
       state_of (process_files b rest (acc ++ extracted b pre) s),
       map Call_process_document pre ++
         trace_of (process_files b rest (acc ++ extracted b pre) s)).
Proof.
  induction pre as [|g pre IH]; intros rest acc s Hpre.
  - simpl. rewrite app_nil_r. symmetry. apply triple_eta.
  - inversion Hpre as [|g' pre' Hg Hpre']; subst.
    simpl app.
    destruct (process_files_ingests g (pre ++ rest) acc s Hg)
      as (docs & Hd & ->).
    rewrite (IH rest (acc ++ docs) s Hpre').
    unfold extracted at 1 2 3. simpl flat_map. rewrite Hd.
    fold (extracted b pre). rewrite app_assoc. reflexivity.
Qed.

(** A file over the cap is never handed to [process_document], and a
    batch that contains one cannot run the loop to its end. *)
Lemma process_files_oversize_member (f : file) (sz : Z) :
  file_size b f = inr sz -> sz > max_size ->
  forall (files : list file) (acc : list Doc) (s : state),
    ~ In (Call_process_document f) (trace_of (process_files b files acc s)) /\
    (In f files ->
     result_of (process_files b files acc s) = Return (inl false) \/
     exists e, result_of (process_files b files acc s) = Raise e).
Proof.
  intros Hsz Hgt files.
  induction files as [|g rest IH]; intros acc s.
  - split; [intros []|intros []].
  - destruct (ingests b s g) eqn:Hg.
    + assert (Hne : g <> f).
      { intros ->. pose proof (ingests_within_cap s f sz Hg Hsz). lia. }
      destruct (process_files_ingests g rest acc s Hg) as (docs & _ & ->).
      destruct (IH (acc ++ docs) s) as [IHa IHb].
      split.
      * intros [Heq|Hin]; [injection Heq as Heq; contradiction|].
        exact (IHa Hin).
      * intros [Heq|Hin]; [contradiction|]. exact (IHb Hin).
    + destruct (process_files_stops g rest acc s Hg)
        as (r & tr & -> & Hr & Htr).
      split; [|intros _; exact Hr].
      unfold trace_of; simpl.
      destruct Htr as [->|[[-> (sz' & Hsz' & Hle)]|(sz' & _ & _ & ->)]].
      * intros [].
      * intros [Heq|[]]. injection Heq as ->.
        rewrite Hsz in Hsz'. injection Hsz' as <-. lia.
      * intros [Heq|[]]. discriminate.
Qed.

(** ** process_documents once the loop has stopped *)

Lemma process_documents_loop_returns (files : list file) (s : state) :
  result_of (process_files b files [] s) = Return (inl false) ->
  process_documents b files s =
    (Return false, s, trace_of (process_files b files [] s)).
Proof.
  intros Hr. pose proof (process_files_state files [] s) as Hs.
  unfold process_documents, try_except, bind.
  destruct (process_files b files [] s) as [[r s'] tr].
  unfold result_of, state_of, trace_of in *. simpl in *. subst.
  unfold ret. rewrite app_nil_r. reflexivity.
Qed.

Lemma process_documents_loop_raises (files : list file) (s : state) (e : exn) :
  result_of (process_files b files [] s) = Raise e ->
  process_documents b files s =
    (Return false, s,
     trace_of (process_files b files [] s) ++ [St_error (Error_processing e)]).
Proof.
  intros Hr. pose proof (process_files_state files [] s) as Hs.
  unfold process_documents, try_except, bind.
  destruct (process_files b files [] s) as [[r s'] tr].
  unfold result_of, state_of, trace_of in *. simpl in *. subst.
  reflexivity.
Qed.

(** ** Size policy *)

(** C1. A source whose reported size exceeds the cap of 2 GiB makes
    [process_documents] return False with the session untouched, and no
    [process_document] call is ever made for that source, wherever it
    stands in the batch.  When the files before it go through, the run
    consists of their extraction calls followed by the too-large error that
    carries the source's name and its observed size, and nothing after. *)
Theorem oversize_source_rejected_before_extraction
    (s : state) (files : list file) (f : file) (sz : Z) :
  In f files -> file_size b f = inr sz -> sz > max_size ->
  result_of (process_documents b files s) = Return false /\
  state_of (process_documents b files s) = s /\
  ~ In (Call_process_document f) (trace_of (process_documents b files s)) /\
  (forall pre post : list file,
     files = pre ++ f :: post ->
     Forall (fun g => ingests b s g = true) pre ->
     trace_of (process_documents b files s) =
       map Call_process_document pre ++
         [St_error (File_too_large (file_name b f) sz)]).
Proof.
  intros Hin Hsz Hgt.
  destruct (process_files_oversize_member f sz Hsz Hgt files [] s)
    as [Hnever Hstop].
  assert (Hcases :
    process_documents b files s =
      (Return false, s, trace_of (process_files b files [] s)) \/
    exists e, process_documents b files s =
      (Return false, s,
       trace_of (process_files b files [] s) ++ [St_error (Error_processing e)])).
  { destruct (Hstop Hin) as [Hr|[e Hr]].
    - left. now apply process_documents_loop_returns.
    - right. exists e. now apply process_documents_loop_raises. }
  repeat split.
  - destruct Hcases as [->|[e ->]]; reflexivity.
  - destruct Hcases as [->|[e ->]]; reflexivity.
  - destruct Hcases as [->|[e ->]]; unfold trace_of at 1; simpl; [exact Hnever|].
    intros H. apply in_app_or in H. destruct H as [H|[H|[]]].
    + exact (Hnever H).
    + discriminate.
  - intros pre post -> Hpre.
    assert (Hloop : process_files b (pre ++ f :: post) [] s =
      (Return (inl false), s,
       map Call_process_document pre ++
         [St_error (File_too_large (file_name b f) sz)])).
    { rewrite (process_files_app pre (f :: post) [] s Hpre).
      rewrite (process_files_oversize f post _ s sz Hsz Hgt). reflexivity. }
    rewrite process_documents_loop_returns; rewrite Hloop; reflexivity.
Qed.

(** Sequencing and exception handling only add events at the end. *)
Lemma bind_trace_prefix {A B : Type} (m : @M Doc EM CM A) (k : A -> M B)
    (s : state) :
  exists tl : trace, trace_of (bind m k s) = trace_of (m s) ++ tl.
Proof.
  unfold bind, trace_of. destruct (m s) as [[[a|e|] s1] l1]; simpl.
  - destruct (k a s1) as [[r s2] l2]. simpl. eauto.
  - exists []. now rewrite app_nil_r.
  - exists []. now rewrite app_nil_r.
Qed.

Lemma try_except_trace_prefix {A : Type} (m : @M Doc EM CM A)
    (h : exn -> M A) (s : state) :
  exists tl : trace, trace_of (try_except m h s) = trace_of (m s) ++ tl.
Proof.
  unfold try_except, trace_of. destruct (m s) as [[[a|e|] s1] l1]; simpl.
  - exists []. now rewrite app_nil_r.
  - destruct (h e s1) as [[r s2] l2]. simpl. eauto.
  - exists []. now rewrite app_nil_r.
Qed.

(** The events of the loop come first in the events of the function. *)
Lemma process_documents_trace_prefix (files : list file) (s : state) :
  exists tl : trace,
    trace_of (process_documents b files s) =
      trace_of (process_files b files [] s) ++ tl.
Proof.
  unfold process_documents.
  match goal with
  | |- context [try_except (bind ?m ?k) ?h s] =>
      destruct (try_except_trace_prefix (bind m k) h s) as [tl1 ->];
      destruct (bind_trace_prefix m k s) as [tl2 ->]
  end.
  exists (tl2 ++ tl1). now rewrite app_assoc.
Qed.

(** A first file within the cap that opens is handed to
    [process_document] before anything else is shown. *)
Lemma process_files_within_cap (f : file) (rest : list file) (acc : list Doc)
    (s : state) (sz : Z) :
  file_size b f = inr sz -> sz <= max_size -> opens b f = true ->
  processor s <> None ->
  exists tl : trace,
    trace_of (process_files b (f :: rest) acc s) = Call_process_document f :: tl.
Proof.
  intros Hsz Hle Hop Hp.
  assert (Hgt : (sz >? max_size) = false).
  { rewrite Z.gtb_ltb. apply Z.ltb_ge. exact Hle. }
  destruct (processor s) as [pr|] eqn:Hpr; [|contradiction].
  destruct f as [p|u]; simpl in Hsz, Hop; simpl process_files; unfold_script.
  - rewrite Hsz. simpl. rewrite Hgt.
    destruct (open_rb b p) as [e|[]]; [discriminate|]. simpl. rewrite Hpr. simpl.
    destruct (process_document b (Path p)) as [e|docs]; simpl; [eauto|].
    destruct (process_files b rest (acc ++ docs) s) as [[r s'] tr]. simpl. eauto.
  - injection Hsz as ->. rewrite Hgt. rewrite Hpr. simpl.
    destruct (process_document b (Upload u)) as [e|docs]; simpl; [eauto|].
    destruct (process_files b rest (acc ++ docs) s) as [[r s'] tr]. simpl. eauto.
Qed.

(** The path entered in the sidebar, once it names an existing PDF whose
    size can be read. *)
Lemma validate_file_path_sized (p : string) (s : state) (sz : Z) :
  String.eqb p "" = false -> endswith (lower p) ".pdf" = true ->
  os_path_exists b p = true -> os_path_getsize b p = inr sz ->
  validate_file_path b p s =
    if sz >? max_size
    then (Return tt, s, [St_error (Path_too_large sz)])
    else (Return tt, set_large_files (large_files_list s ++ [p]) s,
          [St_success (File_found (os_path_basename b p) sz)]).
Proof.
  intros Hne Hpdf Hex Hsz.
  unfold validate_file_path. rewrite Hne, Hpdf, Hex. simpl.
  unfold_script. rewrite Hsz. simpl.
  change (sz >? 2147483648) with (sz >? max_size).
  destruct (sz >? max_size); [reflexivity|].
  unfold large_files_list, set_large_files.
  destruct s as [pr em cm ms ds [l|]]; reflexivity.
Qed.

(** C9. The size check is strict: a source is turned away as too large
    exactly when its size is greater than 2 * 1024 * 1024 * 1024 bytes.
    A source of at most that size, so one of exactly 2 GiB, passes the
    check and is handed to [process_document], whether it is an uploaded
    file or a filesystem path; the check on an entered path is the same,
    a path within the cap being added to [large_files]. *)
Theorem size_cap_is_strict
    (s : state) (f : file) (rest : list file) (sz : Z) :
  file_size b f = inr sz ->
  max_size = 2147483648 /\
  (sz > max_size ->
   process_documents b (f :: rest) s =
     (Return false, s, [St_error (File_too_large (file_name b f) sz)])) /\
  (sz <= max_size -> opens b f = true -> processor s <> None ->
   exists tl : trace,
     trace_of (process_documents b (f :: rest) s) =
       Call_process_document f :: tl) /\
  (forall p : string,
     f = Path p -> String.eqb p "" = false ->
     endswith (lower p) ".pdf" = true -> os_path_exists b p = true ->
     (sz > max_size ->
      validate_file_path b p s =
        (Return tt, s, [St_error (Path_too_large sz)])) /\
     (sz <= max_size ->
      validate_file_path b p s =
        (Return tt, set_large_files (large_files_list s ++ [p]) s,
         [St_success (File_found (os_path_basename b p) sz)]))).
Proof.
  intros Hsz. split; [reflexivity|]. split; [|split].
  - intros Hgt.
    pose proof (process_files_oversize f rest [] s sz Hsz Hgt) as Hloop.
    rewrite process_documents_loop_returns; rewrite Hloop; reflexivity.
  - intros Hle Hop Hp.
    destruct (process_files_within_cap f rest [] s sz Hsz Hle Hop Hp) as [tl Htl].
    destruct (process_documents_trace_prefix (f :: rest) s) as [tl' ->].
    rewrite Htl. simpl. eauto.
  - intros p -> Hne Hpdf Hex. simpl in Hsz.
    rewrite (validate_file_path_sized p s sz Hne Hpdf Hex Hsz).
    split; intros H.
    + apply Z.gtb_gt in H. now rewrite H.
    + assert (Hgt : (sz >? max_size) = false)
        by (rewrite Z.gtb_ltb; apply Z.ltb_ge; exact H).
      now rewrite Hgt.
Qed.

(** ** The chat input *)

Lemma initialize_initialized (s : state) :
  initialized s = true -> initialize_session_state b s = (Return true, s, []).
Proof.
  unfold initialized. intros H.
  destruct s as [[pr|] [em|] [cm|] [ms|] [ds|] lf]; try discriminate.
  reflexivity.
Qed.

(** A run in which the sidebar widgets are left alone is the run of the
    chat input, after the chunk count and the history are shown. *)
Lemma main_idle_sidebar (ui : ui_input) (s : state) :
  initialized s = true -> file_path ui = ""%string ->
  process_button ui = false -> clear_conversation_button ui = false ->
  clear_file_chunks_button ui = false ->
  main b ui s =
    (result_of (chat b (chat_input ui) s),
     state_of (chat b (chat_input ui) s),
     idle_events s ++ trace_of (chat b (chat_input ui) s)).
Proof.
  intros Hinit Hpath Hproc Hconv Hchunks.
  unfold main. unfold bind at 1. rewrite (initialize_initialized s Hinit).
  simpl negb. cbv iota.
  unfold sidebar. rewrite Hpath, Hproc, Hconv, Hchunks.
  unfold initialized in Hinit. unfold idle_events.
  destruct s as [[pr|] [em|] [cm|] [ms|] [ds|] lf]; try discriminate.
  unfold validate_file_path, all_files_to_process, display_history.
  simpl String.eqb. cbv iota. simpl negb. cbv iota.
  destruct (chat b (chat_input ui) _) as [[r s'] tr] eqn:Hchat.
  unfold_script. simpl.
  match goal with
  | |- context [truthy ?l] => destruct (truthy l)
  end; simpl;
    destruct ds as [|d ds]; simpl; rewrite Hchat; reflexivity.
Qed.

Lemma history_has_no_calls (l : list message) :
  forallb (fun e : @event Doc => negb (is_pipeline_call e))
    (map (fun m => Chat_write (role m) (content m)) l) = true.
Proof. induction l as [|m l IH]; [reflexivity|exact IH]. Qed.

(** The chat input on a session without chunks. *)
Lemma chat_without_documents (s : state) (query : string)
    (history : list message) :
  query <> ""%string -> documents s = Some [] -> messages s = Some history ->
  chat b (Some query) s =
    (Return tt,
     set_messages
       (history ++ [user_turn query; assistant_turn no_documents_reply]) s,
     [Chat_write "user" query; Chat_write "assistant" no_documents_reply]).
Proof.
  intros Hq Hd Hm. apply String.eqb_neq in Hq.
  unfold chat. rewrite Hq.
  destruct s as [pr em cm ms ds lf]. simpl in Hd, Hm. subst.
  unfold append_message, set_messages. unfold_script. simpl.
  rewrite <- app_assoc. reflexivity.
Qed.

(** C2. A query asked while the chunk collection is empty is answered with
    the fixed no-documents reply: the run shows the question and the
    reply, calls neither [search] nor [generate_response] (nor any other
    collaborator), and appends the user message and the fixed reply to the
    history.  The same holds for a whole run of [main] whose sidebar is
    left alone. *)
Theorem ask_without_documents_is_fixed_reply
    (s : state) (query : string) (history : list message) :
  query <> ""%string -> documents s = Some [] -> messages s = Some history ->
  chat b (Some query) s =
    (Return tt,
     set_messages
       (history ++ [user_turn query; assistant_turn no_documents_reply]) s,
     [Chat_write "user" query; Chat_write "assistant" no_documents_reply]) /\
  (forall ui : ui_input,
     initialized s = true -> file_path ui = ""%string ->
     process_button ui = false -> clear_conversation_button ui = false ->
     clear_file_chunks_button ui = false -> chat_input ui = Some query ->
     result_of (main b ui s) = Return tt /\
     state_of (main b ui s) =
       set_messages
         (history ++ [user_turn query; assistant_turn no_documents_reply]) s /\
     forallb (fun e => negb (is_pipeline_call e)) (trace_of (main b ui s))
       = true).
Proof.
  intros Hq Hd Hm.
  pose proof (chat_without_documents s query history Hq Hd Hm) as Hchat.
  split; [exact Hchat|].
  intros ui Hinit Hpath Hproc Hconv Hchunks Hin.
  rewrite (main_idle_sidebar ui s Hinit Hpath Hproc Hconv Hchunks).
  rewrite Hin, Hchat. unfold result_of, state_of, trace_of. simpl.
  repeat split.
  unfold idle_events. rewrite Hd, Hm. simpl.
  rewrite forallb_app, history_has_no_calls. reflexivity.
Qed.

(** ** Failure of the generation call *)

(** C7. When the generation call of a turn raises, the exception leaves
    [main]'s chat block unchanged as the outcome of the run, the history
    holds the earlier turns followed by the user's message only, no
    assistant text is shown or appended, and the chunk collection is as it
    was. *)
Theorem generation_failure_appends_no_assistant_turn
    (s : state) (query : string) (history : list message)
    (d : Doc) (ds : list Doc) (e : exn) :
  query <> ""%string -> messages s = Some history ->
  documents s = Some (d :: ds) -> generation_fails b s query e ->
  result_of (chat b (Some query) s) = Raise e /\
  messages (state_of (chat b (Some query) s)) =
    Some (history ++ [user_turn query]) /\
  documents (state_of (chat b (Some query) s)) = Some (d :: ds) /\
  (forall text : string,
     ~ In (Chat_write "assistant" text) (trace_of (chat b (Some query) s))) /\
  (forall ui : ui_input,
     initialized s = true -> file_path ui = ""%string ->
     process_button ui = false -> clear_conversation_button ui = false ->
     clear_file_chunks_button ui = false -> chat_input ui = Some query ->
     result_of (main b ui s) = Raise e /\
     messages (state_of (main b ui s)) = Some (history ++ [user_turn query])).
Proof.
  intros Hq Hm Hd (cm & docs & Hcm & Hret & Hgen).
  apply String.eqb_neq in Hq.
  assert (Hchat :
    result_of (chat b (Some query) s) = Raise e /\
    messages (state_of (chat b (Some query) s)) =
      Some (history ++ [user_turn query]) /\
    documents (state_of (chat b (Some query) s)) = Some (d :: ds) /\
    (forall text : string,
       ~ In (Chat_write "assistant" text) (trace_of (chat b (Some query) s)))).
  { unfold chat. rewrite Hq. unfold retrieved in Hret.
    destruct s as [pr [em|] cm' ms ds' lf]; simpl in Hm, Hd, Hcm, Hret;
      [|discriminate].
    subst. unfold append_message, respond, set_messages. unfold_script.
    simpl.
    destruct (retriever b em) as [|[r|]]; simpl.
    - destruct (search b em query) as [em' [e'|docs']]; simpl in *;
        [discriminate|]. injection Hret as ->.
      destruct (generate_response b cm query docs) as [cm' [e'|text]];
        simpl in *; [|discriminate]. injection Hgen as ->.
      repeat split; try reflexivity.
      intros text [H|[H|[H|[]]]]; discriminate.
    - injection Hret as <-.
      destruct (generate_response b cm query []) as [cm' [e'|text]];
        simpl in *; [|discriminate]. injection Hgen as ->.
      repeat split; try reflexivity.
      intros text [H|[H|[]]]; discriminate.
    - destruct (search b em query) as [em' [e'|docs']]; simpl in *;
        [discriminate|]. injection Hret as ->.
      destruct (generate_response b cm query docs) as [cm' [e'|text]];
        simpl in *; [|discriminate]. injection Hgen as ->.
      repeat split; try reflexivity.
      intros text [H|[H|[H|[]]]]; discriminate. }
  destruct Hchat as (Hr & Hms & Hds & Hno).
  split; [exact Hr|]. split; [exact Hms|]. split; [exact Hds|].
  split; [exact Hno|].
  intros ui Hinit Hpath Hproc Hconv Hchunks Hin.
  rewrite (main_idle_sidebar ui s Hinit Hpath Hproc Hconv Hchunks), Hin.
  split; assumption.
Qed.

(** ** Conversation reset *)

(** C5. The Clear Conversation action leaves the history empty and does
    not touch the chunk collection, the embedding manager (which owns the
    vector index) or the list of entered paths, whatever
    [reset_conversation] does to the chat manager; a run of [main] in which
    the button is pressed, on a session that holds chunks, ends the same
    way. *)
Theorem clear_conversation_keeps_documents (s : state) :
  messages (state_of (clear_conversation b s)) = Some [] /\
  documents (state_of (clear_conversation b s)) = documents s /\
  embedding_manager (state_of (clear_conversation b s)) = embedding_manager s /\
  large_files (state_of (clear_conversation b s)) = large_files s /\
  (forall (ui : ui_input) (d : Doc) (ds : list Doc),
     initialized s = true -> documents s = Some (d :: ds) ->
     file_path ui = ""%string -> process_button ui = false ->
     clear_conversation_button ui = true ->
     messages (state_of (main b ui s)) = Some [] /\
     documents (state_of (main b ui s)) = documents s /\
     embedding_manager (state_of (main b ui s)) = embedding_manager s /\
     ~ In Call_clear_embeddings (trace_of (main b ui s))).
Proof.
  assert (Hblock :
    messages (state_of (clear_conversation b s)) = Some [] /\
    documents (state_of (clear_conversation b s)) = documents s /\
    embedding_manager (state_of (clear_conversation b s)) = embedding_manager s /\
    large_files (state_of (clear_conversation b s)) = large_files s).
  { unfold clear_conversation, st_rerun. unfold_script.
    destruct s as [pr em [cm|] ms ds lf]; simpl; [|repeat split].
    destruct (reset_conversation b cm) as [cm' [e|[]]]; simpl; repeat split. }
  destruct Hblock as (H1 & H2 & H3 & H4).
  split; [exact H1|]. split; [exact H2|]. split; [exact H3|].
  split; [exact H4|].
  intros ui d ds Hinit Hd Hpath Hproc Hconv.
  unfold main. unfold bind at 1. rewrite (initialize_initialized s Hinit).
  simpl negb. cbv iota.
  unfold sidebar. rewrite Hpath, Hproc, Hconv.
  unfold initialized in Hinit.
  destruct s as [[pr|] [em|] [cm|] [ms|] ds' lf]; try discriminate.
  simpl in Hd. subst ds'.
  unfold validate_file_path, all_files_to_process, clear_conversation,
    st_rerun.
  simpl String.eqb. cbv iota.
  unfold_script. simpl.
  match goal with
  | |- context [truthy ?l] => destruct (truthy l)
  end; simpl;
    destruct (reset_conversation b cm) as [cm' [e|[]]]; simpl;
    (repeat split; intros [H|[H|[]]]; discriminate).
Qed.

(** ** Missing credential *)

Lemma main_without_credential (ui : ui_input) (s : state) :
  Config_is_valid b = false -> chat_manager s = None ->
  result_of (main b ui s) = Return tt /\
  trace_of (main b ui s) = [St_error Missing_api_key] /\
  chat_manager (state_of (main b ui s)) = None /\
  messages (state_of (main b ui s)) = messages s /\
  documents (state_of (main b ui s)) = documents s /\
  large_files (state_of (main b ui s)) = large_files s.
Proof.
  intros Hvalid Hcm.
  unfold main, initialize_session_state. unfold_script.
  destruct s as [[pr|] [em|] cm ms ds lf]; simpl in Hcm; subst;
    simpl; rewrite Hvalid; simpl; repeat split.
Qed.

(** C8. When the credential check fails and the session has no chat
    manager, a run of [main] shows the missing-key error once and returns:
    it makes no collaborator call and leaves history, chunk collection and
    entered paths as they were.  The chat manager stays absent, so every
    later run of the session is blocked in the same way. *)
Theorem missing_credential_blocks_session (s : state) :
  Config_is_valid b = false -> chat_manager s = None ->
  (forall ui : ui_input,
     result_of (main b ui s) = Return tt /\
     trace_of (main b ui s) = [St_error Missing_api_key] /\
     chat_manager (state_of (main b ui s)) = None /\
     messages (state_of (main b ui s)) = messages s /\
     documents (state_of (main b ui s)) = documents s /\
     large_files (state_of (main b ui s)) = large_files s) /\
  (forall uis : list ui_input,
     Forall (fun tr => tr = [St_error Missing_api_key]) (snd (runs b uis s)) /\
     chat_manager (fst (runs b uis s)) = None /\
     messages (fst (runs b uis s)) = messages s /\
     documents (fst (runs b uis s)) = documents s).
Proof.
  intros Hvalid Hcm. split.
  - intros ui. now apply main_without_credential.
  - intros uis. revert s Hcm.
    induction uis as [|ui uis IH]; intros s Hcm.
    + simpl. repeat split; [constructor|exact Hcm].
    + destruct (main_without_credential ui s Hvalid Hcm)
        as (_ & Htr & Hcm' & Hms & Hds & _).
      simpl runs. unfold trace_of, state_of in *.
      destruct (main b ui s) as [[r s1] l1]. simpl in *.
      specialize (IH s1 Hcm').
      destruct (runs b uis s1) as [s2 ls]. simpl in *.
      destruct IH as (IH1 & IH2 & IH3 & IH4).
      repeat split; [constructor; assumption|assumption|congruence|congruence].
Qed.

(** ** What a successful ingestion stores *)

(** The three ways the loop ends: [return False], an exception, or the end
    of the batch with every file gone through. *)
Lemma process_files_result (files : list file) :
  forall (acc : list Doc) (s : state),
    result_of (process_files b files acc s) = Return (inl false) \/
    (exists e, result_of (process_files b files acc s) = Raise e) \/
    (result_of (process_files b files acc s) =
       Return (inr (acc ++ extracted b files)) /\
     trace_of (process_files b files acc s) = map Call_process_document files).
Proof.
  induction files as [|f rest IH]; intros acc s.
  - right. right. simpl. rewrite app_nil_r. split; reflexivity.
  - destruct (ingests b s f) eqn:Hf.
    + destruct (process_files_ingests f rest acc s Hf) as (docs & Hd & ->).
      unfold result_of at 1 2 3, trace_of at 1. simpl fst. simpl snd.
      destruct (IH (acc ++ docs) s) as [H|[H|[H1 H2]]]; [now left|now auto|].
      right. right. unfold extracted. simpl flat_map. rewrite Hd.
      fold (extracted b rest). rewrite app_assoc, H1, H2. split; reflexivity.
    + destruct (process_files_stops f rest acc s Hf)
        as (r & tr & -> & Hr & _).
      destruct Hr as [->|[e ->]]; [now left|]. right. left. now exists e.
Qed.

(** C4 (as the code has it). A successful ingestion stores exactly the
    chunks extracted from the files of this batch, in batch order, as the
    session's chunk collection, and hands that same sequence to
    [create_embeddings]: the collection held before is replaced, not
    extended. *)
Theorem successful_ingestion_replaces_collection
    (s : state) (files : list file) :
  result_of (process_documents b files s) = Return true ->
  documents (state_of (process_documents b files s)) =
    Some (extracted b files) /\
  In (Call_create_embeddings (extracted b files))
    (trace_of (process_documents b files s)).
Proof.
  pose proof (process_files_state files [] s) as Hs.
  pose proof (process_files_result files [] s) as Hr.
  remember (process_documents b files s) as out eqn:Hout.
  unfold process_documents, try_except in Hout. unfold bind at 1 in Hout.
  destruct (process_files b files [] s) as [[r s'] tr].
  unfold result_of, state_of, trace_of in Hs, Hr. simpl in Hs, Hr. subst s'.
  destruct Hr as [->|[[e ->]|[-> ->]]].
  - subst out. discriminate.
  - subst out. discriminate.
  - simpl app in Hout. set (docs := extracted b files) in *.
    unfold_script. simpl in Hout.
    destruct s as [pr [em|] cm ms ds lf]; simpl in Hout;
      [|subst out; discriminate].
    destruct (create_embeddings b em docs) as [em' [e|[|]]]; simpl in Hout;
      [subst out; discriminate| |subst out; discriminate].
    destruct cm as [cm|]; simpl in Hout; [|subst out; discriminate].
    destruct (retriever b em') as [|r]; simpl in Hout;
      [subst out; discriminate|].
    destruct (set_retriever b cm r) as [cm' [e|[]]]; simpl in Hout;
      [subst out; discriminate|].
    subst out. simpl. intros _. split; [reflexivity|].
    apply in_or_app. right. now left.
Qed.

(** ** The list of entered paths *)

Section Frame.

Variable Rl : option (list string) -> option (list string) -> Prop.
Hypothesis Rl_refl : forall l, Rl l l.
Hypothesis Rl_trans : forall l1 l2 l3, Rl l1 l2 -> Rl l2 l3 -> Rl l1 l3.

Lemma preserves_bind {A B : Type} (m : @M Doc EM CM A) (k : A -> M B) :
  preserves Rl m -> (forall a, preserves Rl (k a)) -> preserves Rl (bind m k).
Proof.
  intros Hm Hk s. specialize (Hm s). unfold bind, state_of in *.
  destruct (m s) as [[[a|e|] s1] l1]; simpl in *; try exact Hm.
  specialize (Hk a s1). unfold state_of in Hk.
  destruct (k a s1) as [[r s2] l2]. simpl in *. eauto.
Qed.

Lemma preserves_try_except {A : Type} (m : @M Doc EM CM A) (h : exn -> M A) :
  preserves Rl m -> (forall e, preserves Rl (h e)) ->
  preserves Rl (try_except m h).
Proof.
  intros Hm Hh s. specialize (Hm s). unfold try_except, state_of in *.
  destruct (m s) as [[[a|e|] s1] l1]; simpl in *; try exact Hm.
  specialize (Hh e s1). unfold state_of in Hh.
  destruct (h e s1) as [[r s2] l2]. simpl in *. eauto.
Qed.

Lemma preserves_ret {A : Type} (a : A) : preserves Rl (@ret Doc EM CM A a).
Proof. intros s. apply Rl_refl. Qed.

Lemma preserves_emit (e : event) : preserves Rl (@emit Doc EM CM e).
Proof. intros s. apply Rl_refl. Qed.

Lemma preserves_lift {A : Type} (r : exn + A) :
  preserves Rl (@lift Doc EM CM A r).
Proof. intros s. apply Rl_refl. Qed.

Lemma preserves_rerun {A : Type} : preserves Rl (@st_rerun Doc EM CM A).
Proof. intros s. apply Rl_refl. Qed.

Lemma preserves_getattr {A : Type} (key : string)
    (field : state -> option A) :
  preserves Rl (getattr key field).
Proof. intros s. unfold getattr, state_of. destruct (field s); apply Rl_refl. Qed.

Lemma preserves_has_key {A : Type} (field : state -> option A) :
  preserves Rl (has_key field).
Proof. intros s. apply Rl_refl. Qed.

Lemma preserves_from_attribute {A : Type} (name : string) (a : attribute A) :
  preserves Rl (@from_attribute Doc EM CM A name a).
Proof. intros s. destruct a; apply Rl_refl. Qed.

Lemma preserves_modify (f : state -> state) :
  (forall s, large_files (f s) = large_files s) -> preserves Rl (modify f).
Proof. intros Hf s. unfold modify, state_of. simpl. rewrite Hf. apply Rl_refl. Qed.

Lemma preserves_call_em {A : Type} (ev : event) (method : EM -> EM * (exn + A)) :
  preserves Rl (@call_em Doc EM CM A ev method).
Proof.
  intros s. unfold call_em, state_of. destruct (embedding_manager s);
    apply Rl_refl.
Qed.

Lemma preserves_call_cm {A : Type} (ev : event) (method : CM -> CM * (exn + A)) :
  preserves Rl (@call_cm Doc EM CM A ev method).
Proof.
  intros s. unfold call_cm, state_of. destruct (chat_manager s);
    apply Rl_refl.
Qed.

Lemma preserves_process_files (files : list file) (acc : list Doc) :
  preserves Rl (process_files b files acc).
Proof. intros s. rewrite process_files_state. apply Rl_refl. Qed.

Ltac frame :=
  repeat first
    [ apply preserves_ret | apply preserves_emit | apply preserves_lift
    | apply preserves_rerun | apply preserves_getattr
    | apply preserves_has_key | apply preserves_from_attribute
    | apply preserves_call_em | apply preserves_call_cm
    | apply preserves_process_files
    | apply preserves_modify; intros; reflexivity
    | apply preserves_bind; [|intros ?]
    | apply preserves_try_except; [|intros ?]
    | match goal with
      | |- preserves _ (if ?c then _ else _) => destruct c
      | |- preserves _ (match ?x with _ => _ end) => destruct x
      end ].

Lemma preserves_process_documents (files : list file) :
  preserves Rl (process_documents b files).
Proof. unfold process_documents, st_error, st_success. frame. Qed.

Lemma preserves_clear_conversation : preserves Rl (clear_conversation b).
Proof. unfold clear_conversation. frame. Qed.

Lemma preserves_display_history : preserves Rl (@display_history Doc EM CM).
Proof.
  unfold display_history. apply preserves_bind; [apply preserves_getattr|].
  intros l s. apply Rl_refl.
Qed.

Lemma preserves_chat (input : option string) : preserves Rl (chat b input).
Proof. unfold chat, respond, append_message. frame. Qed.

Lemma preserves_all_files_to_process (uploaded : list UploadedFile) :
  preserves Rl (@all_files_to_process Doc EM CM uploaded).
Proof. intros s. apply Rl_refl. Qed.

(** A run of [main] moves the list along [Rl] as soon as the path
    validation and the Clear File Chunks action do. *)
Lemma preserves_main (ui : ui_input) :
  preserves Rl (validate_file_path b (file_path ui)) ->
  preserves Rl
    (if clear_file_chunks_button ui then clear_file_chunks b else ret tt) ->
  preserves Rl (main b ui).
Proof.
  intros Hv Hc. unfold main.
  apply preserves_bind.
  { unfold initialize_session_state, initialize_rest, st_error. frame. }
  intros ok. destruct (negb ok); [apply preserves_ret|].
  apply preserves_bind; [|intros _; apply preserves_bind;
    [apply preserves_display_history|intros _; apply preserves_chat]].
  unfold sidebar.
  apply preserves_bind; [exact Hv|intros _].
  apply preserves_bind; [apply preserves_all_files_to_process|intros files].
  apply preserves_bind.
  { destruct (truthy files); [|apply preserves_ret].
    destruct (process_button ui); [|apply preserves_ret].
    apply preserves_bind; [apply preserves_process_documents|].
    intros _. apply preserves_ret. }
  intros _. apply preserves_bind; [apply preserves_getattr|intros docs].
  destruct (truthy docs); [|apply preserves_ret].
  apply preserves_bind; [apply preserves_emit|intros _].
  apply preserves_bind; [|intros _; exact Hc].
  destruct (clear_conversation_button ui);
    [apply preserves_clear_conversation|apply preserves_ret].
Qed.

End Frame.

Lemma extends_refl (l : option (list string)) : extends l l.
Proof. exists []. now rewrite app_nil_r. Qed.

Lemma extends_trans (l1 l2 l3 : option (list string)) :
  extends l1 l2 -> extends l2 l3 -> extends l1 l3.
Proof.
  intros [x Hx] [y Hy]. exists (x ++ y). now rewrite Hy, Hx, app_assoc.
Qed.

Lemma validate_file_path_extends (p : string) :
  preserves extends (validate_file_path b p).
Proof.
  intros s. unfold validate_file_path.
  destruct (String.eqb p ""); [apply extends_refl|].
  destruct (negb (endswith (lower p) ".pdf")); [apply extends_refl|].
  destruct (negb (os_path_exists b p)); [apply extends_refl|].
  unfold_script.
  destruct (os_path_getsize b p) as [e|sz]; simpl; [apply extends_refl|].
  change (sz >? 2147483648) with (sz >? max_size).
  destruct (sz >? max_size); simpl; [apply extends_refl|].
  destruct s as [pr em cm ms ds [l|]]; simpl; exists [p]; reflexivity.
Qed.

Lemma main_extends (ui : ui_input) :
  clear_file_chunks_button ui = false -> preserves extends (main b ui).
Proof.
  intros Hc. apply preserves_main.
  - exact extends_refl.
  - exact extends_trans.
  - apply validate_file_path_extends.
  - rewrite Hc. apply preserves_ret. exact extends_refl.
Qed.

Lemma runs_keep_entered_paths (uis : list ui_input) :
  Forall (fun ui => clear_file_chunks_button ui = false) uis ->
  forall (s : state) (p : string),
    In p (large_files_list s) -> In p (large_files_list (fst (runs b uis s))).
Proof.
  induction 1 as [|ui uis Hui Huis IH]; intros s p Hin; [exact Hin|].
  simpl runs. pose proof (main_extends ui Hui s) as [suffix Hext].
  unfold state_of in Hext.
  destruct (main b ui s) as [[r s1] l1]. simpl in Hext.
  specialize (IH s1 p). destruct (runs b uis s1) as [s2 ls]. simpl in *.
  apply IH. unfold large_files_list. rewrite Hext.
  apply in_or_app. now left.
Qed.

Lemma clear_file_chunks_empties (s : state) :
  large_files_list (state_of (clear_file_chunks b s)) = [].
Proof.
  unfold clear_file_chunks, st_rerun, large_files_list. unfold_script.
  destruct s as [pr [em|] cm ms ds [l|]]; simpl; try reflexivity;
    destruct (clear_embeddings b) as [|method]; simpl; try reflexivity;
    destruct (method em) as [em' [e|[]]]; reflexivity.
Qed.

(** C10. [process_documents] leaves [large_files] as it finds it.  Each
    validation of an entered path that names an existing PDF within the
    cap appends the path at the end of the list, whether or not the list
    already holds it.  A run of [main] in which Clear File Chunks is not
    pressed keeps every entry, and so does any sequence of such runs; the
    batch built for Process Documents holds every entry as a path; the
    Clear File Chunks action leaves the list empty. *)
Theorem large_files_persist_until_cleared (s : state) :
  (forall files : list file,
     large_files (state_of (process_documents b files s)) = large_files s) /\
  (forall (p : string) (sz : Z),
     String.eqb p "" = false -> endswith (lower p) ".pdf" = true ->
     os_path_exists b p = true -> os_path_getsize b p = inr sz ->
     sz <= max_size ->
     large_files_list (state_of (validate_file_path b p s)) =
       large_files_list s ++ [p]) /\
  (forall ui : ui_input,
     clear_file_chunks_button ui = false ->
     exists suffix : list string,
       large_files_list (state_of (main b ui s)) =
         large_files_list s ++ suffix) /\
  (forall (uis : list ui_input) (p : string),
     Forall (fun ui => clear_file_chunks_button ui = false) uis ->
     In p (large_files_list s) ->
     In p (large_files_list (fst (runs b uis s)))) /\
  (forall (uploaded : list UploadedFile) (p : string),
     In p (large_files_list s) ->
     exists files : list file,
       result_of (all_files_to_process uploaded s) = Return files /\
       In (Path p) files) /\
  large_files_list (state_of (clear_file_chunks b s)) = [].
Proof.
  split; [|split; [|split; [|split; [|split]]]].
  - intros files.
    apply (preserves_process_documents (fun before after => after = before)).
    + reflexivity.
    + intros l1 l2 l3 H12 H23. congruence.
  - intros p sz Hne Hpdf Hex Hsz Hle.
    rewrite (validate_file_path_sized p s sz Hne Hpdf Hex Hsz).
    assert (Hgt : (sz >? max_size) = false)
      by (rewrite Z.gtb_ltb; apply Z.ltb_ge; exact Hle).
    rewrite Hgt. reflexivity.
  - intros ui Hc. exact (main_extends ui Hc s).
  - intros uis p Huis Hin. now apply runs_keep_entered_paths.
  - intros uploaded p Hin. unfold all_files_to_process, result_of. simpl.
    eexists. split; [reflexivity|].
    apply in_or_app. right. unfold large_files_list in Hin.
    destruct (large_files s) as [l|]; [|destruct Hin].
    destruct l as [|q l]; [destruct Hin|]. simpl truthy. cbv iota.
    apply in_map. exact Hin.
  - apply clear_file_chunks_empties.
Qed.

End Properties.

(** * The statements at concrete sessions *)

(** A batch of a small PDF followed by one of 3 GiB: the first is
    extracted, the second is turned away with its size and never
    extracted. *)
Lemma oversize_source_rejected_at_3GiB :
  In (Upload huge_pdf) [Upload report_pdf; Upload huge_pdf] /\
  file_size (scenario_backend working) (Upload huge_pdf) = inr (3 * GiB) /\
  3 * GiB > max_size /\
  result_of (process_documents (scenario_backend working)
               [Upload report_pdf; Upload huge_pdf] fresh_session) =
    Return false /\
  state_of (process_documents (scenario_backend working)
              [Upload report_pdf; Upload huge_pdf] fresh_session) =
    fresh_session /\
  trace_of (process_documents (scenario_backend working)
              [Upload report_pdf; Upload huge_pdf] fresh_session) =
    [Call_process_document (Upload report_pdf);
     St_error (File_too_large "huge.pdf" (3 * GiB))] /\
  ~ In (Call_process_document (Upload huge_pdf))
      (trace_of (process_documents (scenario_backend working)
                   [Upload report_pdf; Upload huge_pdf] fresh_session)).
Proof.
  assert (Hin : In (Upload huge_pdf) [Upload report_pdf; Upload huge_pdf])
    by (right; left; reflexivity).
  assert (Hsz : file_size (scenario_backend working) (Upload huge_pdf)
                = inr (3 * GiB)) by reflexivity.
  assert (Hgt : 3 * GiB > max_size) by (unfold GiB, max_size; lia).
  destruct (oversize_source_rejected_before_extraction
              (scenario_backend working) fresh_session
              [Upload report_pdf; Upload huge_pdf] (Upload huge_pdf)
              (3 * GiB) Hin Hsz Hgt) as (Hr & Hs & Hnever & Htr).
  split; [exact Hin|]. split; [exact Hsz|]. split; [exact Hgt|].
  split; [exact Hr|]. split; [exact Hs|]. split; [|exact Hnever].
  apply (Htr [Upload report_pdf] []); [reflexivity|].
  constructor; [reflexivity|constructor].
Defined.

(** A path of exactly 2 GiB passes both checks: it is added to
    [large_files] when entered and extracted when processed.  An uploaded
    file of exactly 2 GiB is extracted as well. *)
Lemma size_cap_accepts_exactly_2GiB :
  file_size (scenario_backend working) (Path "/data/big.pdf") = inr (2 * GiB) /\
  2 * GiB = max_size /\
  (exists tl,
     trace_of (process_documents (scenario_backend working)
                 [Path "/data/big.pdf"] fresh_session) =
       Call_process_document (Path "/data/big.pdf") :: tl) /\
  validate_file_path (scenario_backend working) "/data/big.pdf" fresh_session =
    (Return tt, set_large_files ["/data/big.pdf"%string] fresh_session,
     [St_success (File_found "/data/big.pdf" (2 * GiB))]) /\
  (exists tl,
     trace_of (process_documents (scenario_backend working)
                 [Upload edge_pdf] fresh_session) =
       Call_process_document (Upload edge_pdf) :: tl).
Proof.
  assert (Hsz : file_size (scenario_backend working) (Path "/data/big.pdf")
                = inr (2 * GiB)) by reflexivity.
  assert (Hle : 2 * GiB <= max_size) by (unfold GiB, max_size; lia).
  destruct (size_cap_is_strict (scenario_backend working) fresh_session
              (Path "/data/big.pdf") [] (2 * GiB) Hsz)
    as (_ & _ & Hext & Hval).
  destruct (size_cap_is_strict (scenario_backend working) fresh_session
              (Upload edge_pdf) [] (2 * GiB) eq_refl)
    as (_ & _ & Hupload & _).
  split; [exact Hsz|]. split; [reflexivity|]. split; [|split].
  - apply Hext; [exact Hle|reflexivity|discriminate].
  - destruct (Hval "/data/big.pdf"%string eq_refl eq_refl eq_refl eq_refl)
      as [_ Hin].
    exact (Hin Hle).
  - apply Hupload; [exact Hle|reflexivity|discriminate].
Defined.

(** With no document loaded, a question gets the fixed reply and both
    messages are recorded. *)
Lemma ask_anything_without_documents :
  "anything"%string <> ""%string /\
  documents fresh_session = Some [] /\
  messages fresh_session = Some [] /\
  chat (scenario_backend working) (Some "anything"%string) fresh_session =
    (Return tt,
     set_messages
       [user_turn "anything"; assistant_turn no_documents_reply] fresh_session,
     [Chat_write "user" "anything";
      Chat_write "assistant" no_documents_reply]) /\
  result_of (main (scenario_backend working) (ask "anything") fresh_session) =
    Return tt /\
  state_of (main (scenario_backend working) (ask "anything") fresh_session) =
    set_messages
      [user_turn "anything"; assistant_turn no_documents_reply] fresh_session /\
  forallb (fun e => negb (is_pipeline_call e))
    (trace_of (main (scenario_backend working) (ask "anything") fresh_session))
    = true.
Proof.
  assert (Hq : "anything"%string <> ""%string) by discriminate.
  destruct (ask_without_documents_is_fixed_reply (scenario_backend working)
              fresh_session "anything" [] Hq eq_refl eq_refl) as [Hchat Hmain].
  destruct (Hmain (ask "anything") eq_refl eq_refl eq_refl eq_refl eq_refl
              eq_refl) as (Hr & Hs & Hcalls).
  split; [exact Hq|]. split; [reflexivity|]. split; [reflexivity|].
  split; [exact Hchat|]. split; [exact Hr|]. split; [exact Hs|exact Hcalls].
Defined.

(** A generation call that raises leaves the user's message alone in the
    history and the exception as the outcome of the run. *)
Lemma generation_failure_at_one_question :
  generation_fails (scenario_backend generator_down) session_with_report
    "What?" (LibraryError "GenerationError") /\
  result_of (main (scenario_backend generator_down) (ask "What?")
               session_with_report) =
    Raise (LibraryError "GenerationError") /\
  messages (state_of (main (scenario_backend generator_down) (ask "What?")
                        session_with_report)) =
    Some [user_turn "What?"].
Proof.
  assert (Hfail : generation_fails (scenario_backend generator_down)
                    session_with_report "What?"
                    (LibraryError "GenerationError")).
  { exists tt, []. repeat split. }
  assert (Hq : "What?"%string <> ""%string) by discriminate.
  destruct (generation_failure_appends_no_assistant_turn
              (scenario_backend generator_down) session_with_report "What?"
              [] "report.pdf"%string [] (LibraryError "GenerationError")
              Hq eq_refl eq_refl Hfail) as (_ & _ & _ & _ & Hmain).
  split; [exact Hfail|].
  exact (Hmain (ask "What?") eq_refl eq_refl eq_refl eq_refl eq_refl eq_refl).
Defined.

(** Without the API key, three runs of a new session each show the error
    and nothing else. *)
Lemma missing_credential_at_three_runs :
  Config_is_valid (scenario_backend no_credential) = false /\
  chat_manager empty_session = None /\
  trace_of (main (scenario_backend no_credential) upload_and_process
              empty_session) = [St_error Missing_api_key] /\
  Forall (fun tr => tr = [St_error Missing_api_key])
    (snd (runs (scenario_backend no_credential)
            [upload_and_process; ask "What?"; ask "Why?"] empty_session)) /\
  documents (fst (runs (scenario_backend no_credential)
                    [upload_and_process; ask "What?"; ask "Why?"]
                    empty_session)) = None.
Proof.
  destruct (missing_credential_blocks_session (scenario_backend no_credential)
              empty_session eq_refl eq_refl) as [Hrun Hruns].
  destruct (Hrun upload_and_process) as (_ & Htr & _).
  destruct (Hruns [upload_and_process; ask "What?"; ask "Why?"])
    as (Hall & _ & _ & Hdocs).
  split; [reflexivity|]. split; [reflexivity|]. split; [exact Htr|].
  split; [exact Hall|exact Hdocs].
Defined.

(** A second batch into a session that holds the chunk of an earlier one:
    the collection becomes the chunks of the second batch. *)
Lemma successful_ingestion_at_second_batch :
  result_of (process_documents (scenario_backend working)
               [Upload report_pdf] loaded_session) = Return true /\
  documents (state_of (process_documents (scenario_backend working)
                         [Upload report_pdf] loaded_session)) =
    Some ["report.pdf"%string].
Proof.
  assert (Hok : result_of (process_documents (scenario_backend working)
                             [Upload report_pdf] loaded_session) = Return true)
    by reflexivity.
  split; [exact Hok|].
  exact (proj1 (successful_ingestion_replaces_collection
                  (scenario_backend working) loaded_session
                  [Upload report_pdf] Hok)).
Defined.

(** C4 as stated fails: a successful ingestion need not keep the chunks
    the session held before. *)
Lemma ingestion_does_not_keep_earlier_chunks :
  ~ (forall (files : list file) (s : @session_state string VectorIndex.t unit)
            (before after : list string) (d : string),
       result_of (process_documents (scenario_backend working) files s)
         = Return true ->
       documents s = Some before ->
       documents (state_of (process_documents (scenario_backend working)
                              files s)) = Some after ->
       In d before -> In d after).
Proof.
  intros H.
  specialize (H [Upload report_pdf] loaded_session ["old.pdf"%string]
                ["report.pdf"%string] "old.pdf"%string
                eq_refl eq_refl eq_refl (or_introl eq_refl)).
  destruct H as [H|[]]. discriminate.
Qed.

(** C3 at a failing input: the Embedder is out of reach, so
    [create_embeddings] returns False and [process_documents] reports the
    failure, yet the chunk collection that held "old.pdf" now holds the
    chunks of the failed batch while the vector index is as before. *)
Lemma failed_embedding_replaces_collection :
  process_documents (scenario_backend embedder_down)
    [Upload report_pdf] loaded_session =
    (Return false,
     set_documents ["report.pdf"%string] loaded_session,
     [Call_process_document (Upload report_pdf);
      Call_create_embeddings ["report.pdf"%string];
      St_error Failed_embeddings]) /\
  documents loaded_session = Some ["old.pdf"%string] /\
  embedding_manager (set_documents ["report.pdf"%string] loaded_session) =
    embedding_manager loaded_session.
Proof. repeat split. Qed.

(** C6 at a failing input: after a run of [main] in which a PDF is
    uploaded and processed while the Embedder is out of reach, the session
    holds one chunk and the vector index holds no vector. *)
Lemma failed_embedding_breaks_chunk_vector_count :
  option_map (@List.length string)
    (documents (state_of (main (scenario_backend embedder_down)
                            upload_and_process empty_session))) =
    Some 1%nat /\
  option_map VectorIndex.size
    (embedding_manager (state_of (main (scenario_backend embedder_down)
                                    upload_and_process empty_session))) =
    Some 0%nat.
Proof. split; reflexivity. Qed.

(** Clear Conversation in the middle of a conversation: the history is
    emptied, the chunk and its vector stay. *)
Lemma clear_conversation_in_conversation :
  messages (state_of (main (scenario_backend working) press_clear_conversation
                        session_in_conversation)) = Some [] /\
  documents (state_of (main (scenario_backend working) press_clear_conversation
                         session_in_conversation)) =
    Some ["/data/big.pdf"%string] /\
  embedding_manager
    (state_of (main (scenario_backend working) press_clear_conversation
                 session_in_conversation)) =
    Some [("/data/big.pdf"%string, 1)].
Proof.
  destruct (clear_conversation_keeps_documents (scenario_backend working)
              session_in_conversation) as (_ & _ & _ & _ & Hmain).
  destruct (Hmain press_clear_conversation "/data/big.pdf"%string []
              eq_refl eq_refl eq_refl eq_refl eq_refl)
    as (Hms & Hds & Hem & _).
  split; [exact Hms|]. split; [exact Hds|exact Hem].
Defined.

(** An entered path is appended a second time when it is validated again,
    and it is still in the list after two more runs. *)
Lemma entered_path_persists_and_repeats :
  large_files_list
    (state_of (validate_file_path (scenario_backend working) "/data/big.pdf"
                 session_in_conversation)) =
    ["/data/big.pdf"%string; "/data/big.pdf"%string] /\
  In "/data/big.pdf"%string
    (large_files_list
       (fst (runs (scenario_backend working)
               [reprocess_entered_path; ask "What?"]
               session_in_conversation))) /\
  large_files
    (state_of (process_documents (scenario_backend working)
                 [Path "/data/big.pdf"] session_in_conversation)) =
    Some ["/data/big.pdf"%string].
Proof.
  destruct (large_files_persist_until_cleared (scenario_backend working)
              session_in_conversation)
    as (Hproc & Hval & _ & Hruns & _ & _).
  split; [|split].
  - assert (Hle : 2 * GiB <= max_size) by (unfold GiB, max_size; lia).
    exact (Hval "/data/big.pdf"%string (2 * GiB) eq_refl eq_refl eq_refl
             eq_refl Hle).
  - apply Hruns; [|left; reflexivity].
    constructor; [reflexivity|]. constructor; [reflexivity|constructor].
  - exact (Hproc [Path "/data/big.pdf"]).
Defined.

(** * Further properties of the three functions *)

Section FurtherProperties.

Context {Doc EM CM Retr : Type}.
Variable b : @backend Doc EM CM Retr.

Let state : Type := @session_state Doc EM CM.
Let trace : Type := list (@event Doc).

Local Arguments Z.gtb : simpl never.

Ltac unfold_script :=
  unfold call_process_document, st_error, st_success, emit, lift, ret,
    getattr, has_key, modify, from_attribute, call_em, call_cm, bind,
    try_except, of_sum, result_of, state_of, trace_of in *.

(** ** initialize_session_state *)

(** X1. When the credential is valid, or the session already has its chat
    manager, [initialize_session_state] returns True and shows nothing;
    every key that was present keeps its value, every absent key gets its
    default (new managers, empty history, empty chunk collection), and
    [large_files] is not touched.  A second call changes nothing. *)
Theorem initialize_fills_absent_keys (s : state) :
  Config_is_valid b = true \/ chat_manager s <> None ->
  result_of (initialize_session_state b s) = Return true /\
  trace_of (initialize_session_state b s) = [] /\
  state_of (initialize_session_state b s) =
    {| processor := Some (or_default (processor s) tt);
       embedding_manager :=
         Some (or_default (embedding_manager s) (new_EmbeddingManager b));
       chat_manager := Some (or_default (chat_manager s) (new_ChatManager b));
       messages := Some (or_default (messages s) []);
       documents := Some (or_default (documents s) []);
       large_files := large_files s |} /\
  initialize_session_state b (state_of (initialize_session_state b s)) =
    (Return true, state_of (initialize_session_state b s), []).
Proof.
  intros Hok.
  destruct s as [[pr|] [em|] [cm|] [ms|] [ds|] lf]; simpl in Hok;
    unfold initialize_session_state, initialize_rest; unfold_script; simpl;
    try (destruct Hok as [Hv|Hc]; [rewrite Hv|contradiction]); simpl;
    repeat split.
Qed.

(** X2. When the credential check fails on a session without chat
    manager, the processor and the embedding manager are created all the
    same (they are assigned before the check), while the chat manager, the
    history and the chunk collection stay as they were. *)
Theorem initialize_without_credential_is_partial (s : state) :
  Config_is_valid b = false -> chat_manager s = None ->
  initialize_session_state b s =
    (Return false,
     {| processor := Some (or_default (processor s) tt);
        embedding_manager :=
          Some (or_default (embedding_manager s) (new_EmbeddingManager b));
        chat_manager := None;
        messages := messages s;
        documents := documents s;
        large_files := large_files s |},
     [St_error Missing_api_key]).
Proof.
  intros Hv Hc.
  destruct s as [[pr|] [em|] cm ms ds lf]; simpl in Hc; subst;
    unfold initialize_session_state; unfold_script; simpl; rewrite Hv;
    reflexivity.
Qed.

(** ** process_documents *)

(** X3. [process_documents] never lets an exception out and never stops
    the script: whatever the files, the session and the collaborators do,
    it returns True or False. *)
Theorem process_documents_always_returns (files : list file) (s : state) :
  exists v : bool, result_of (process_documents b files s) = Return v.
Proof.
  pose proof (process_files_state b files [] s) as Hs.
  pose proof (process_files_result b files [] s) as Hr.
  remember (process_documents b files s) as out eqn:Hout.
  unfold process_documents, try_except in Hout. unfold bind at 1 in Hout.
  destruct (process_files b files [] s) as [[r s'] tr].
  unfold result_of, state_of, trace_of in Hs, Hr. simpl in Hs, Hr. subst s'.
  destruct Hr as [->|[[e ->]|[-> _]]].
  - subst out. eexists. reflexivity.
  - subst out. eexists. reflexivity.
  - simpl app in Hout. set (docs := extracted b files) in *.
    unfold_script. simpl in Hout.
    destruct s as [pr [em|] cm ms ds lf]; simpl in Hout;
      [|subst out; eexists; reflexivity].
    destruct (create_embeddings b em docs) as [em' [e|[|]]]; simpl in Hout;
      try (subst out; eexists; reflexivity).
    destruct cm as [cm|]; simpl in Hout; [|subst out; eexists; reflexivity].
    destruct (retriever b em') as [|r]; simpl in Hout;
      [subst out; eexists; reflexivity|].
    destruct (set_retriever b cm r) as [cm' [e|[]]]; simpl in Hout;
      subst out; eexists; reflexivity.
Qed.

Lemma process_files_extraction_raises (f : file) (rest : list file)
    (acc : list Doc) (s : state) (sz : Z) (e : exn) :
  processor s <> None -> file_size b f = inr sz -> sz <= max_size ->
  opens b f = true -> process_document b f = inl e ->
  process_files b (f :: rest) acc s = (Raise e, s, [Call_process_document f]).
Proof.
  intros Hp Hsz Hle Hop He.
  assert (Hgt : (sz >? max_size) = false)
    by (rewrite Z.gtb_ltb; apply Z.ltb_ge; exact Hle).
  destruct (processor s) as [pr|] eqn:Hpr; [|contradiction].
  destruct f as [p|u]; simpl in Hsz, Hop; simpl process_files; unfold_script.
  - rewrite Hsz. simpl. rewrite Hgt.
    destruct (open_rb b p) as [e'|[]]; [discriminate|]. simpl.
    rewrite Hpr. simpl. rewrite He. reflexivity.
  - injection Hsz as ->. rewrite Hgt, Hpr. simpl. rewrite He. reflexivity.
Qed.

(** X4. A file whose extraction raises aborts the batch: the files before
    it were extracted, the files after it are not looked at, the exception
    is shown as the processing error, False is returned and the session,
    with the chunks of earlier batches, is untouched. *)
Theorem extraction_error_aborts_batch
    (s : state) (pre post : list file) (f : file) (sz : Z) (e : exn) :
  Forall (fun g => ingests b s g = true) pre ->
  processor s <> None -> file_size b f = inr sz -> sz <= max_size ->
  opens b f = true -> process_document b f = inl e ->
  process_documents b (pre ++ f :: post) s =
    (Return false, s,
     map Call_process_document pre ++
       [Call_process_document f; St_error (Error_processing e)]).
Proof.
  intros Hpre Hp Hsz Hle Hop He.
  assert (Hloop : process_files b (pre ++ f :: post) [] s =
    (Raise e, s, map Call_process_document pre ++ [Call_process_document f])).
  { rewrite (process_files_app b pre (f :: post) [] s Hpre).
    rewrite (process_files_extraction_raises f post _ s sz e Hp Hsz Hle Hop He).
    reflexivity. }
  rewrite (process_documents_loop_raises b (pre ++ f :: post) s e);
    rewrite Hloop; [|reflexivity].
  unfold trace_of. simpl. rewrite <- app_assoc. reflexivity.
Qed.

(** X5. A path of the batch whose size cannot be read, or which cannot be
    opened, aborts the batch before any extraction call for it: the
    OS error is shown as the processing error, False is returned and the
    session is untouched. *)
Theorem unreadable_path_aborts_batch
    (s : state) (pre post : list file) (p : string) (e : exn) :
  Forall (fun g => ingests b s g = true) pre ->
  os_path_getsize b p = inl e \/
  (exists sz, os_path_getsize b p = inr sz /\ sz <= max_size /\
              open_rb b p = inl e) ->
  process_documents b (pre ++ Path p :: post) s =
    (Return false, s,
     map Call_process_document pre ++ [St_error (Error_processing e)]).
Proof.
  intros Hpre Hbad.
  assert (Hhead : forall acc,
    process_files b (Path p :: post) acc s = (Raise e, s, [])).
  { intros acc. simpl process_files. unfold_script.
    destruct Hbad as [Hsz|(sz & Hsz & Hle & Hop)]; rewrite Hsz; simpl;
      [reflexivity|].
    assert (Hgt : (sz >? max_size) = false)
      by (rewrite Z.gtb_ltb; apply Z.ltb_ge; exact Hle).
    rewrite Hgt, Hop. reflexivity. }
  assert (Hloop : process_files b (pre ++ Path p :: post) [] s =
    (Raise e, s, map Call_process_document pre)).
  { rewrite (process_files_app b pre (Path p :: post) [] s Hpre).
    rewrite Hhead. unfold result_of, state_of, trace_of. simpl.
    rewrite app_nil_r. reflexivity. }
  rewrite (process_documents_loop_raises b (pre ++ Path p :: post) s e);
    rewrite Hloop; reflexivity.
Qed.

Lemma process_files_complete_ingests (files : list file) :
  forall (acc docs : list Doc) (s : state),
    result_of (process_files b files acc s) = Return (inr docs) ->
    Forall (fun f => ingests b s f = true) files.
Proof.
  induction files as [|f rest IH]; intros acc docs s Hr; [constructor|].
  destruct (ingests b s f) eqn:Hf.
  - constructor; [exact Hf|].
    destruct (process_files_ingests b f rest acc s Hf) as (d & _ & Heq).
    rewrite Heq in Hr. unfold result_of at 1 in Hr. simpl in Hr.
    exact (IH _ _ _ Hr).
  - destruct (process_files_stops b f rest acc s Hf)
      as (r & tr & Heq & Hstop & _).
    rewrite Heq in Hr. unfold result_of in Hr. simpl in Hr. subst r.
    destruct Hstop as [H|[e H]]; discriminate.
Qed.

(** X6. When [process_documents] returns True, every file of the batch
    went through the size check and the extraction, and the run is exactly:
    one [process_document] call per file in batch order, one
    [create_embeddings] call on all their chunks, one [set_retriever] call,
    and the success notice with the number of chunks stored. *)
Theorem successful_ingestion_trace (s : state) (files : list file) :
  result_of (process_documents b files s) = Return true ->
  Forall (fun f => ingests b s f = true) files /\
  trace_of (process_documents b files s) =
    map Call_process_document files ++
      [Call_create_embeddings (extracted b files);
       Call_set_retriever;
       St_success (Processed_chunks (List.length (extracted b files)))].
Proof.
  pose proof (process_files_state b files [] s) as Hs.
  pose proof (process_files_result b files [] s) as Hr.
  pose proof (process_files_complete_ingests files [] (extracted b files) s)
    as Hall.
  remember (process_documents b files s) as out eqn:Hout.
  unfold process_documents, try_except in Hout. unfold bind at 1 in Hout.
  destruct (process_files b files [] s) as [[r s'] tr].
  unfold result_of, state_of, trace_of in Hs, Hr, Hall.
  simpl in Hs, Hr, Hall. subst s'.
  destruct Hr as [->|[[e ->]|[-> ->]]].
  - subst out. discriminate.
  - subst out. discriminate.
  - simpl app in Hout. specialize (Hall eq_refl).
    set (docs := extracted b files) in *.
    unfold_script. simpl in Hout.
    destruct s as [pr [em|] cm ms ds lf]; simpl in Hout;
      [|subst out; discriminate].
    destruct (create_embeddings b em docs) as [em' [e|[|]]]; simpl in Hout;
      [subst out; discriminate| |subst out; discriminate].
    destruct cm as [cm|]; simpl in Hout; [|subst out; discriminate].
    destruct (retriever b em') as [|r]; simpl in Hout;
      [subst out; discriminate|].
    destruct (set_retriever b cm r) as [cm' [e|[]]]; simpl in Hout;
      [subst out; discriminate|].
    subst out. simpl. intros _. split; [exact Hall|reflexivity].
Qed.

(** ** Frames: what a block leaves alone *)

Section Keeps.

Context {X : Type}.
Variable proj : state -> X.
Variable R : X -> X -> Prop.
Hypothesis R_refl : forall x, R x x.
Hypothesis R_trans : forall x y z, R x y -> R y z -> R x z.
Hypothesis R_em : forall v s, R (proj s) (proj (set_embedding_manager v s)).
Hypothesis R_cm : forall v s, R (proj s) (proj (set_chat_manager v s)).

Lemma keeps_bind {A B : Type} (m : @M Doc EM CM A) (k : A -> M B) :
  keeps proj R m -> (forall a, keeps proj R (k a)) -> keeps proj R (bind m k).
Proof.
  intros Hm Hk s. specialize (Hm s). unfold bind, state_of in *.
  destruct (m s) as [[[a|e|] s1] l1]; simpl in *; try exact Hm.
  specialize (Hk a s1). unfold state_of in Hk.
  destruct (k a s1) as [[r s2] l2]. simpl in *. eauto.
Qed.

Lemma keeps_try_except {A : Type} (m : @M Doc EM CM A) (h : exn -> M A) :
  keeps proj R m -> (forall e, keeps proj R (h e)) ->
  keeps proj R (try_except m h).
Proof.
  intros Hm Hh s. specialize (Hm s). unfold try_except, state_of in *.
  destruct (m s) as [[[a|e|] s1] l1]; simpl in *; try exact Hm.
  specialize (Hh e s1). unfold state_of in Hh.
  destruct (h e s1) as [[r s2] l2]. simpl in *. eauto.
Qed.

Lemma keeps_ret {A : Type} (a : A) : keeps proj R (@ret Doc EM CM A a).
Proof. intros s. apply R_refl. Qed.

Lemma keeps_emit (e : event) : keeps proj R (@emit Doc EM CM e).
Proof. intros s. apply R_refl. Qed.

Lemma keeps_lift {A : Type} (r : exn + A) : keeps proj R (@lift Doc EM CM A r).
Proof. intros s. apply R_refl. Qed.

Lemma keeps_rerun {A : Type} : keeps proj R (@st_rerun Doc EM CM A).
Proof. intros s. apply R_refl. Qed.

Lemma keeps_getattr {A : Type} (key : string) (field : state -> option A) :
  keeps proj R (getattr key field).
Proof. intros s. unfold getattr, state_of. destruct (field s); apply R_refl. Qed.

Lemma keeps_has_key {A : Type} (field : state -> option A) :
  keeps proj R (has_key field).
Proof. intros s. apply R_refl. Qed.

Lemma keeps_from_attribute {A : Type} (name : string) (a : attribute A) :
  keeps proj R (@from_attribute Doc EM CM A name a).
Proof. intros s. destruct a; apply R_refl. Qed.

Lemma keeps_modify (f : state -> state) :
  (forall s, R (proj s) (proj (f s))) -> keeps proj R (modify f).
Proof. intros Hf s. apply Hf. Qed.

Lemma keeps_call_em {A : Type} (ev : event) (method : EM -> EM * (exn + A)) :
  keeps proj R (@call_em Doc EM CM A ev method).
Proof.
  intros s. unfold call_em, state_of. destruct (embedding_manager s); simpl;
    [apply R_em|apply R_refl].
Qed.

Lemma keeps_call_cm {A : Type} (ev : event) (method : CM -> CM * (exn + A)) :
  keeps proj R (@call_cm Doc EM CM A ev method).
Proof.
  intros s. unfold call_cm, state_of. destruct (chat_manager s); simpl;
    [apply R_cm|apply R_refl].
Qed.

Lemma keeps_process_files (files : list file) (acc : list Doc) :
  keeps proj R (process_files b files acc).
Proof. intros s. rewrite process_files_state. apply R_refl. Qed.

Lemma keeps_display_history : keeps proj R (@display_history Doc EM CM).
Proof.
  unfold display_history. apply keeps_bind; [apply keeps_getattr|].
  intros l s. apply R_refl.
Qed.

Lemma keeps_all_files_to_process (uploaded : list UploadedFile) :
  keeps proj R (@all_files_to_process Doc EM CM uploaded).
Proof. intros s. apply R_refl. Qed.

Ltac keep :=
  repeat first
    [ apply keeps_ret | apply keeps_emit | apply keeps_lift
    | apply keeps_rerun | apply keeps_getattr
    | apply keeps_has_key | apply keeps_from_attribute
    | apply keeps_call_em | apply keeps_call_cm
    | apply keeps_process_files
    | apply keeps_bind; [|intros ?]
    | apply keeps_try_except; [|intros ?]
    | match goal with
      | |- keeps _ _ (if ?c then _ else _) => destruct c
      | |- keeps _ _ (match ?x with _ => _ end) => destruct x
      end ].

Hypothesis R_large_files : forall v s, R (proj s) (proj (set_large_files v s)).

Lemma keeps_validate_file_path (p : string) :
  keeps proj R (validate_file_path b p).
Proof.
  unfold validate_file_path, st_error, st_success. keep;
    apply keeps_modify; intros; apply R_large_files.
Qed.

Hypothesis R_documents : forall v s, R (proj s) (proj (set_documents v s)).

Lemma keeps_process_documents (files : list file) :
  keeps proj R (process_documents b files).
Proof.
  unfold process_documents, st_error, st_success. keep.
  apply keeps_modify; intros; apply R_documents.
Qed.

Lemma keeps_clear_file_chunks : keeps proj R (clear_file_chunks b).
Proof.
  unfold clear_file_chunks. keep; apply keeps_modify; intros;
    first [apply R_documents|apply R_large_files].
Qed.

(** The blocks of [main] after the initialization, in their order. *)
Lemma keeps_after_initialize (ui : ui_input) :
  keeps proj R (validate_file_path b (file_path ui)) ->
  (forall files,
     keeps proj R
       (if process_button ui
        then bind (process_documents b files) (fun _ => ret tt)
        else ret tt)) ->
  keeps proj R
    (if clear_conversation_button ui then clear_conversation b else ret tt) ->
  keeps proj R
    (if clear_file_chunks_button ui then clear_file_chunks b else ret tt) ->
  keeps proj R (chat b (chat_input ui)) ->
  keeps proj R
    (bind (sidebar b ui)
       (fun _ => bind display_history (fun _ => chat b (chat_input ui)))).
Proof.
  intros Hv Hp Hconv Hchunks Hchat.
  apply keeps_bind; [|intros _; apply keeps_bind;
    [apply keeps_display_history|intros _; exact Hchat]].
  unfold sidebar.
  apply keeps_bind; [exact Hv|intros _].
  apply keeps_bind; [apply keeps_all_files_to_process|intros files].
  apply keeps_bind.
  { destruct (truthy files); [apply Hp|apply keeps_ret]. }
  intros _. apply keeps_bind; [apply keeps_getattr|intros docs].
  destruct (truthy docs); [|apply keeps_ret].
  apply keeps_bind; [apply keeps_emit|intros _].
  apply keeps_bind; [exact Hconv|intros _; exact Hchunks].
Qed.

Lemma keeps_main (ui : ui_input) :
  keeps proj R (initialize_session_state b) ->
  keeps proj R
    (bind (sidebar b ui)
       (fun _ => bind display_history (fun _ => chat b (chat_input ui)))) ->
  keeps proj R (main b ui).
Proof.
  intros Hi Hrest. unfold main. apply keeps_bind; [exact Hi|].
  intros ok. destruct (negb ok); [apply keeps_ret|exact Hrest].
Qed.

Lemma keeps_respond (query : string) : keeps proj R (respond b query).
Proof. unfold respond. keep. Qed.

Lemma keeps_chat (input : option string) :
  (forall m, keeps proj R (append_message m)) -> keeps proj R (chat b input).
Proof.
  intros Ha. unfold chat. destruct input as [query|]; [|apply keeps_ret].
  destruct (String.eqb query ""); [apply keeps_ret|].
  apply keeps_bind; [apply Ha|intros _].
  apply keeps_bind; [apply keeps_emit|intros _].
  apply keeps_bind; [apply keeps_getattr|intros docs].
  destruct (negb (truthy docs)).
  - apply keeps_bind; [apply keeps_emit|intros _; apply Ha].
  - apply keeps_bind; [apply keeps_respond|intros response].
    apply keeps_bind; [apply keeps_emit|intros _; apply Ha].
Qed.

Lemma keeps_clear_conversation :
  (forall s, R (proj s) (proj (set_messages [] s))) ->
  keeps proj R (clear_conversation b).
Proof.
  intros Hm. unfold clear_conversation. keep. apply keeps_modify. exact Hm.
Qed.

End Keeps.

(** X7. [process_documents] leaves the conversation history and the
    processor as they are, whether it succeeds or fails. *)
Theorem ingestion_keeps_history (files : list file) (s : state) :
  messages (state_of (process_documents b files s)) = messages s /\
  processor (state_of (process_documents b files s)) = processor s.
Proof.
  split.
  - apply (keeps_process_documents messages (fun before after => after = before));
      try reflexivity.
    intros x y z Hxy Hyz. congruence.
  - apply (keeps_process_documents processor (fun before after => after = before));
      try reflexivity.
    intros x y z Hxy Hyz. congruence.
Qed.

(** ** Invariants of a run of main *)



Lemma initialized_fields (s : state) :
  initialized s = true ->
  exists pr em cm ms ds,
    processor s = Some pr /\ embedding_manager s = Some em /\
    chat_manager s = Some cm /\ messages s = Some ms /\ documents s = Some ds.
Proof.
  unfold initialized.
  destruct s as [[pr|] [em|] [cm|] [ms|] [ds|] lf]; simpl; try discriminate.
  intros _. eauto 10.
Qed.



Lemma append_message_extends (m : message) :
  keeps messages_list
    (fun before after => exists suffix, after = before ++ suffix)
    (@append_message Doc EM CM m).
Proof.
  intros s. unfold append_message, messages_list. unfold_script.
  destruct s as [pr em cm [l|] ds lf]; simpl.
  - exists [m]. reflexivity.
  - exists []. reflexivity.
Qed.

(** X9. The history is append-only: a run of [main] in which Clear
    Conversation is not pressed keeps every earlier message, in order, as
    a prefix of the history, whatever else is pressed or typed. *)
Theorem history_is_append_only (ui : ui_input) (s : state) :
  clear_conversation_button ui = false ->
  exists suffix : list message,
    messages_list (state_of (main b ui s)) = messages_list s ++ suffix.
Proof.
  intros Hconv.
  set (R := fun before after : list message =>
              exists suffix, after = before ++ suffix).
  assert (R_refl : forall x, R x x)
    by (intros x; exists []; now rewrite app_nil_r).
  assert (R_trans : forall x y z, R x y -> R y z -> R x z).
  { intros x y z [u ->] [v ->]. exists (u ++ v). now rewrite app_assoc. }
  assert (R_em : forall v (s : state),
            R (messages_list s) (messages_list (set_embedding_manager v s)))
    by (intros; apply R_refl).
  assert (R_cm : forall v (s : state),
            R (messages_list s) (messages_list (set_chat_manager v s)))
    by (intros; apply R_refl).
  assert (R_lf : forall v (s : state),
            R (messages_list s) (messages_list (set_large_files v s)))
    by (intros; apply R_refl).
  assert (R_ds : forall v (s : state),
            R (messages_list s) (messages_list (set_documents v s)))
    by (intros; apply R_refl).
  apply (keeps_main messages_list R R_refl R_trans).
  - intros s0. unfold initialize_session_state, initialize_rest.
    unfold_script.
    destruct s0 as [[pr|] [em|] [cm|] [ms|] [ds|] lf]; simpl;
      try (destruct (Config_is_valid b); simpl); apply R_refl.
  - apply keeps_after_initialize; try assumption.
    + apply keeps_validate_file_path; assumption.
    + intros files. destruct (process_button ui); [|now apply keeps_ret].
      apply keeps_bind; [assumption| |intros _; now apply keeps_ret].
      apply keeps_process_documents; assumption.
    + rewrite Hconv. now apply keeps_ret.
    + destruct (clear_file_chunks_button ui); [|now apply keeps_ret].
      apply keeps_clear_file_chunks; assumption.
    + apply keeps_chat; try assumption. apply append_message_extends.
Qed.

(** X10. The chunk collection changes only through Process Documents and
    Clear File Chunks: a run of [main] in which neither is pressed leaves
    it as it was, also when a question is asked, the conversation is
    reset, or a collaborator raises. *)
Theorem documents_change_only_by_process_or_clear (ui : ui_input) (s : state) :
  process_button ui = false -> clear_file_chunks_button ui = false ->
  documents_list (state_of (main b ui s)) = documents_list s.
Proof.
  intros Hproc Hchunks.
  set (R := fun before after : list Doc => after = before).
  assert (R_refl : forall x, R x x) by reflexivity.
  assert (R_trans : forall x y z, R x y -> R y z -> R x z)
    by (unfold R; intros; congruence).
  assert (R_em : forall v (s : state),
            R (documents_list s) (documents_list (set_embedding_manager v s)))
    by reflexivity.
  assert (R_cm : forall v (s : state),
            R (documents_list s) (documents_list (set_chat_manager v s)))
    by reflexivity.
  assert (R_lf : forall v (s : state),
            R (documents_list s) (documents_list (set_large_files v s)))
    by reflexivity.
  assert (R_ms : forall v (s : state),
            R (documents_list s) (documents_list (set_messages v s)))
    by reflexivity.
  apply (keeps_main documents_list R R_refl R_trans).
  - intros s0. unfold initialize_session_state, initialize_rest.
    unfold_script.
    destruct s0 as [[pr|] [em|] [cm|] [ms|] [ds|] lf]; simpl;
      try (destruct (Config_is_valid b); simpl); reflexivity.
  - apply keeps_after_initialize; try assumption.
    + apply keeps_validate_file_path; assumption.
    + intros files. rewrite Hproc. now apply keeps_ret.
    + destruct (clear_conversation_button ui); [|now apply keeps_ret].
      apply keeps_clear_conversation; try assumption. apply R_ms.
    + rewrite Hchunks. now apply keeps_ret.
    + apply keeps_chat; try assumption.
      intros m. unfold append_message.
      apply keeps_bind; [assumption|now apply keeps_getattr|].
      intros l. apply keeps_modify. apply R_ms.
Qed.

(** ** Which calls a run makes *)

Section Emits.

Variable P : @event Doc -> Prop.

Lemma emits_bind {A B : Type} (m : @M Doc EM CM A) (k : A -> M B) :
  emits_only P m -> (forall a, emits_only P (k a)) -> emits_only P (bind m k).
Proof.
  intros Hm Hk s. specialize (Hm s). unfold bind, trace_of in *.
  destruct (m s) as [[[a|e|] s1] l1]; simpl in *; try exact Hm.
  specialize (Hk a s1). unfold trace_of in Hk.
  destruct (k a s1) as [[r s2] l2]. simpl in *.
  apply Forall_app. split; assumption.
Qed.

Lemma emits_try_except {A : Type} (m : @M Doc EM CM A) (h : exn -> M A) :
  emits_only P m -> (forall e, emits_only P (h e)) ->
  emits_only P (try_except m h).
Proof.
  intros Hm Hh s. specialize (Hm s). unfold try_except, trace_of in *.
  destruct (m s) as [[[a|e|] s1] l1]; simpl in *; try exact Hm.
  specialize (Hh e s1). unfold trace_of in Hh.
  destruct (h e s1) as [[r s2] l2]. simpl in *.
  apply Forall_app. split; assumption.
Qed.

Lemma emits_ret {A : Type} (a : A) : emits_only P (@ret Doc EM CM A a).
Proof. intros s. constructor. Qed.

Lemma emits_lift {A : Type} (r : exn + A) : emits_only P (@lift Doc EM CM A r).
Proof. intros s. constructor. Qed.

Lemma emits_rerun {A : Type} : emits_only P (@st_rerun Doc EM CM A).
Proof. intros s. constructor. Qed.

Lemma emits_modify (f : state -> state) : emits_only P (modify f).
Proof. intros s. constructor. Qed.

Lemma emits_getattr {A : Type} (key : string) (field : state -> option A) :
  emits_only P (getattr key field).
Proof.
  intros s. unfold getattr, trace_of. destruct (field s); constructor.
Qed.

Lemma emits_has_key {A : Type} (field : state -> option A) :
  emits_only P (has_key field).
Proof. intros s. constructor. Qed.

Lemma emits_from_attribute {A : Type} (name : string) (a : attribute A) :
  emits_only P (@from_attribute Doc EM CM A name a).
Proof. intros s. destruct a; constructor. Qed.

Lemma emits_emit (e : event) : P e -> emits_only P (@emit Doc EM CM e).
Proof. intros He s. constructor; [exact He|constructor]. Qed.

Lemma emits_call_em {A : Type} (ev : event) (method : EM -> EM * (exn + A)) :
  P ev -> emits_only P (@call_em Doc EM CM A ev method).
Proof.
  intros He s. unfold call_em, trace_of. destruct (embedding_manager s);
    simpl; repeat constructor. exact He.
Qed.

Lemma emits_call_cm {A : Type} (ev : event) (method : CM -> CM * (exn + A)) :
  P ev -> emits_only P (@call_cm Doc EM CM A ev method).
Proof.
  intros He s. unfold call_cm, trace_of. destruct (chat_manager s);
    simpl; repeat constructor. exact He.
Qed.

Lemma emits_all_files_to_process (uploaded : list UploadedFile) :
  emits_only P (@all_files_to_process Doc EM CM uploaded).
Proof. intros s. constructor. Qed.

Ltac emit_step :=
  first
    [ apply emits_ret | apply emits_lift | apply emits_rerun
    | apply emits_modify | apply emits_getattr | apply emits_has_key
    | apply emits_from_attribute
    | apply emits_bind; [|intros ?]
    | apply emits_try_except; [|intros ?]
    | match goal with
      | |- emits_only _ (if ?c then _ else _) => destruct c
      | |- emits_only _ (match ?x with _ => _ end) => destruct x
      end ].

Hypothesis P_notice : forall m, P (St_error m) /\ P (St_success m).
Hypothesis P_chat_write : forall who text, P (Chat_write who text).

Ltac emit_all :=
  repeat first
    [ emit_step
    | apply emits_emit; first [apply P_notice|apply P_chat_write]
    | apply emits_call_em; assumption
    | apply emits_call_cm; assumption ].

Lemma emits_initialize : emits_only P (initialize_session_state b).
Proof.
  unfold initialize_session_state, initialize_rest, st_error. emit_all.
Qed.

Lemma emits_validate_file_path (p : string) :
  emits_only P (validate_file_path b p).
Proof. unfold validate_file_path, st_error, st_success. emit_all. Qed.

Lemma emits_display_history : emits_only P (@display_history Doc EM CM).
Proof.
  unfold display_history. apply emits_bind; [apply emits_getattr|].
  intros l s. unfold trace_of. simpl.
  induction l as [|m l IH]; constructor; [apply P_chat_write|exact IH].
Qed.

Lemma emits_process_files :
  (forall f, P (Call_process_document f)) ->
  forall (files : list file) (acc : list Doc),
    emits_only P (process_files b files acc).
Proof.
  intros Hcall files.
  induction files as [|f rest IH]; intros acc; [apply emits_ret|].
  destruct f as [p|u]; simpl process_files;
    unfold call_process_document, st_error; emit_all;
    first [apply IH | apply emits_emit; apply Hcall].
Qed.

Lemma emits_process_documents (files : list file) :
  (forall f, P (Call_process_document f)) ->
  (forall docs, P (Call_create_embeddings docs)) ->
  P Call_set_retriever ->
  emits_only P (process_documents b files).
Proof.
  intros Hcall Hcreate Hset.
  unfold process_documents, st_error, st_success.
  apply emits_try_except; [|intros e; emit_all].
  apply emits_bind; [now apply emits_process_files|].
  intros [v|docs]; [apply emits_ret|].
  emit_all. apply emits_call_em. apply Hcreate.
Qed.

Lemma emits_clear_conversation :
  P Call_reset_conversation -> emits_only P (clear_conversation b).
Proof. intros H. unfold clear_conversation. emit_all. Qed.

Lemma emits_clear_file_chunks :
  P Call_clear_embeddings -> emits_only P (clear_file_chunks b).
Proof. intros H. unfold clear_file_chunks. emit_all. Qed.

Lemma emits_chat_without_input : emits_only P (chat b None).
Proof. apply emits_ret. Qed.

Lemma emits_chat (input : option string) :
  (forall q, P (Call_search q)) ->
  (forall q docs, P (Call_generate_response q docs)) ->
  emits_only P (chat b input).
Proof.
  intros Hs Hg. unfold chat, respond, append_message. emit_all;
    first [apply emits_call_em; apply Hs | apply emits_call_cm; apply Hg].
Qed.

(** The events of [main], block by block. *)
Lemma emits_main (ui : ui_input) :
  (forall files,
     emits_only P
       (if process_button ui
        then bind (process_documents b files) (fun _ => ret tt)
        else ret tt)) ->
  P Call_reset_conversation -> P Call_clear_embeddings ->
  emits_only P (chat b (chat_input ui)) ->
  emits_only P (main b ui).
Proof.
  intros Hp Hreset Hclear Hchat. unfold main.
  apply emits_bind; [apply emits_initialize|intros ok].
  destruct (negb ok); [apply emits_ret|].
  apply emits_bind; [|intros _; apply emits_bind;
    [apply emits_display_history|intros _; exact Hchat]].
  unfold sidebar.
  apply emits_bind; [apply emits_validate_file_path|intros _].
  apply emits_bind; [apply emits_all_files_to_process|intros files].
  apply emits_bind.
  { destruct (truthy files); [apply Hp|apply emits_ret]. }
  intros _. apply emits_bind; [apply emits_getattr|intros docs].
  destruct (truthy docs); [|apply emits_ret].
  apply emits_bind; [apply emits_emit; apply P_notice|intros _].
  apply emits_bind.
  - destruct (clear_conversation_button ui);
      [now apply emits_clear_conversation|apply emits_ret].
  - intros _. destruct (clear_file_chunks_button ui);
      [now apply emits_clear_file_chunks|apply emits_ret].
Qed.

End Emits.

(** X11. A run of [main] calls [process_document], [create_embeddings]
    and [set_retriever] only when Process Documents is pressed, and calls
    [search] and [generate_response] only when a question is typed. *)
Theorem calls_follow_the_widgets (ui : ui_input) (s : state) :
  (process_button ui = false ->
   Forall (fun e => is_ingestion_call e = false) (trace_of (main b ui s))) /\
  (chat_input ui = None ->
   Forall (fun e => is_query_call e = false) (trace_of (main b ui s))).
Proof.
  split.
  - intros Hproc.
    apply (emits_main (fun e => is_ingestion_call e = false)).
    + intros m. split; reflexivity.
    + reflexivity.
    + intros files. rewrite Hproc. apply emits_ret.
    + reflexivity.
    + reflexivity.
    + apply emits_chat; reflexivity.
  - intros Hin.
    apply (emits_main (fun e => is_query_call e = false)).
    + intros m. split; reflexivity.
    + reflexivity.
    + intros files. destruct (process_button ui); [|apply emits_ret].
      apply emits_bind; [|intros _; apply emits_ret].
      apply emits_process_documents; try reflexivity.
      intros m. split; reflexivity.
    + reflexivity.
    + reflexivity.
    + rewrite Hin. apply emits_chat_without_input.
Qed.

(** ** The entered path *)

Lemma validate_file_path_cases (p : string) (s : state) :
  result_of (validate_file_path b p s) = Return tt /\
  (state_of (validate_file_path b p s) = s \/
   (state_of (validate_file_path b p s) =
      set_large_files (large_files_list s ++ [p]) s /\
    is_pdf_path p = true /\ os_path_exists b p = true /\
    exists sz, os_path_getsize b p = inr sz /\ sz <= max_size)) /\
  (List.length (trace_of (validate_file_path b p s)) <= 1)%nat.
Proof.
  unfold validate_file_path, is_pdf_path.
  destruct (String.eqb p "") eqn:Hne; [repeat split; auto|].
  destruct (endswith (lower p) ".pdf") eqn:Hpdf; simpl negb; cbv iota;
    [|repeat split; auto].
  destruct (os_path_exists b p) eqn:Hex; simpl negb; cbv iota;
    [|repeat split; auto].
  unfold_script.
  destruct (os_path_getsize b p) as [e|sz] eqn:Hsz; simpl;
    [repeat split; auto|].
  change (sz >? 2147483648) with (sz >? max_size).
  destruct (sz >? max_size) eqn:Hgt; simpl; [repeat split; auto|].
  assert (Hle : sz <= max_size)
    by (rewrite Z.gtb_ltb in Hgt; apply Z.ltb_ge in Hgt; exact Hgt).
  unfold large_files_list, set_large_files.
  destruct s as [pr em cm ms ds [l|]]; simpl;
    (split; [reflexivity|split; [right; split; [reflexivity|eauto 6]|auto]]).
Qed.

(** X12. The validation of an entered path never raises, also when
    [os.path.getsize] does, and shows at most one notice.  It either
    leaves the session as it is, or appends the path to [large_files] and
    changes nothing else; the second happens only for a non-empty path
    that ends in .pdf (in any capitalisation), exists, and has a size
    within the cap. *)
Theorem validate_file_path_never_raises (p : string) (s : state) :
  result_of (validate_file_path b p s) = Return tt /\
  (state_of (validate_file_path b p s) = s \/
   (state_of (validate_file_path b p s) =
      set_large_files (large_files_list s ++ [p]) s /\
    is_pdf_path p = true /\ os_path_exists b p = true /\
    exists sz, os_path_getsize b p = inr sz /\ sz <= max_size)) /\
  (List.length (trace_of (validate_file_path b p s)) <= 1)%nat.
Proof. exact (validate_file_path_cases p s). Qed.

Lemma main_keeps_pdf_paths (ui : ui_input) (s : state) :
  Forall (fun p => is_pdf_path p = true) (large_files_list s) ->
  Forall (fun p => is_pdf_path p = true)
    (large_files_list (state_of (main b ui s))).
Proof.
  set (Q := fun l : option (list string) =>
              Forall (fun p => is_pdf_path p = true)
                (match l with Some l => l | None => [] end)).
  apply (preserves_main b (fun before after => Q before -> Q after)).
  - intros l H. exact H.
  - intros l1 l2 l3 H12 H23 H. auto.
  - intros s0 H0.
    destruct (validate_file_path_cases (file_path ui) s0)
      as (_ & [->|(-> & Hpdf & _)] & _); [exact H0|].
    unfold Q, set_large_files. simpl.
    apply Forall_app. split; [exact H0|]. constructor; [exact Hpdf|constructor].
  - destruct (clear_file_chunks_button ui).
    + intros s0 _. pose proof (clear_file_chunks_empties b s0) as He.
      unfold large_files_list in He. unfold Q. rewrite He. constructor.
    + intros s0 H0. exact H0.
Qed.

(** X13. Every entry of [large_files] is a non-empty path ending in .pdf
    (in any capitalisation): the property holds in a new session and
    every run of [main] keeps it, so it holds after any sequence of runs. *)
Theorem entered_paths_are_pdf_paths (uis : list ui_input) (s : state) :
  Forall (fun p => is_pdf_path p = true) (large_files_list s) ->
  Forall (fun p => is_pdf_path p = true)
    (large_files_list (fst (runs b uis s))).
Proof.
  revert s. induction uis as [|ui uis IH]; intros s Hs; [exact Hs|].
  simpl runs. pose proof (main_keeps_pdf_paths ui s Hs) as H1.
  unfold state_of in H1.
  destruct (main b ui s) as [[r s1] l1]. simpl in H1.
  specialize (IH s1 H1). destruct (runs b uis s1) as [s2 ls]. exact IH.
Qed.

(** ** Clear File Chunks *)

Lemma clear_file_chunks_effect (s : state) :
  documents (state_of (clear_file_chunks b s)) = Some [] /\
  messages (state_of (clear_file_chunks b s)) = messages s /\
  chat_manager (state_of (clear_file_chunks b s)) = chat_manager s /\
  processor (state_of (clear_file_chunks b s)) = processor s /\
  (embedding_manager s <> None ->
   embedding_manager (state_of (clear_file_chunks b s)) <> None) /\
  (clear_embeddings b = Missing ->
   embedding_manager (state_of (clear_file_chunks b s)) = embedding_manager s /\
   trace_of (clear_file_chunks b s) = []) /\
  (forall method em,
     clear_embeddings b = Present method -> embedding_manager s = Some em ->
     embedding_manager (state_of (clear_file_chunks b s)) =
       Some (fst (method em)) /\
     trace_of (clear_file_chunks b s) = [Call_clear_embeddings]).
Proof.
  unfold clear_file_chunks, st_rerun. unfold_script.
  destruct s as [pr [em|] cm ms ds [l|]]; simpl;
    destruct (clear_embeddings b) as [|method]; simpl;
    try (destruct (method em) as [em' [e|[]]] eqn:Hm; simpl);
    repeat match goal with |- _ /\ _ => split end;
    try reflexivity; try discriminate; try (intros H; exact H);
    try (intros _; split; reflexivity);
    try (intros method' em0 Heq Hem; try discriminate;
         injection Heq as <-; injection Hem as <-; rewrite Hm;
         split; reflexivity).
Qed.

(** X14. The Clear File Chunks action empties the chunk collection and
    leaves the conversation history, the chat manager and the processor as
    they are.  It calls [clear_embeddings] once when the embedding manager
    has that method; when it has not, the embedding manager, and with it
    every vector, stays as it was. *)
Theorem clear_file_chunks_keeps_conversation (s : state) :
  documents (state_of (clear_file_chunks b s)) = Some [] /\
  messages (state_of (clear_file_chunks b s)) = messages s /\
  chat_manager (state_of (clear_file_chunks b s)) = chat_manager s /\
  processor (state_of (clear_file_chunks b s)) = processor s /\
  (clear_embeddings b = Missing ->
   embedding_manager (state_of (clear_file_chunks b s)) = embedding_manager s /\
   trace_of (clear_file_chunks b s) = []) /\
  (forall method em,
     clear_embeddings b = Present method -> embedding_manager s = Some em ->
     embedding_manager (state_of (clear_file_chunks b s)) =
       Some (fst (method em)) /\
     trace_of (clear_file_chunks b s) = [Call_clear_embeddings]).
Proof.
  destruct (clear_file_chunks_effect s) as (H1 & H2 & H3 & H4 & _ & H5 & H6).
  repeat split; try assumption; try (apply H5; assumption);
    try (eapply H6; eassumption).
Qed.

Lemma main_clear_file_chunks (ui : ui_input) (s : state)
    (d : Doc) (ds : list Doc) :
  initialized s = true -> documents s = Some (d :: ds) ->
  file_path ui = ""%string -> process_button ui = false ->
  clear_conversation_button ui = false -> clear_file_chunks_button ui = true ->
  state_of (main b ui s) = state_of (clear_file_chunks b s).
Proof.
  intros Hinit Hd Hpath Hproc Hconv Hchunks.
  unfold main. unfold bind at 1. rewrite (initialize_initialized b s Hinit).
  simpl negb. cbv iota.
  unfold sidebar. rewrite Hpath, Hproc, Hconv, Hchunks.
  unfold initialized in Hinit.
  destruct s as [[pr|] [em|] [cm|] [ms|] ds' lf]; try discriminate.
  simpl in Hd. subst ds'.
  unfold validate_file_path, all_files_to_process, clear_file_chunks, st_rerun.
  simpl String.eqb. cbv iota.
  unfold_script. simpl.
  match goal with
  | |- context [truthy ?l] => destruct (truthy l)
  end; simpl;
    destruct lf as [l|]; simpl;
    destruct (clear_embeddings b) as [|method]; simpl;
    try (destruct (method em) as [em' [e|[]]]; simpl); reflexivity.
Qed.

Lemma idle_events_have_no_query_call (s : state) :
  Forall (fun e : @event Doc => is_query_call e = false) (idle_events s).
Proof.
  unfold idle_events.
  destruct (documents s) as [docs|]; [|constructor].
  destruct (messages s) as [l|]; [|constructor].
  apply Forall_app. split.
  - destruct (truthy docs); repeat constructor.
  - induction l as [|m l IH]; constructor; [reflexivity|exact IH].
Qed.

(** X15. After a run in which Clear File Chunks is pressed, the next
    question gets the fixed no-documents reply: the run returns, appends
    the question and the fixed reply to the history that the clearing left
    alone, and calls neither [search] nor [generate_response], also when
    [clear_embeddings] raised. *)
Theorem ask_after_clear_file_chunks
    (ui ui2 : ui_input) (s : state) (d : Doc) (ds : list Doc)
    (history : list message) (query : string) :
  initialized s = true -> documents s = Some (d :: ds) ->
  messages s = Some history ->
  file_path ui = ""%string -> process_button ui = false ->
  clear_conversation_button ui = false -> clear_file_chunks_button ui = true ->
  file_path ui2 = ""%string -> process_button ui2 = false ->
  clear_conversation_button ui2 = false ->
  clear_file_chunks_button ui2 = false ->
  chat_input ui2 = Some query -> query <> ""%string ->
  result_of (main b ui2 (state_of (main b ui s))) = Return tt /\
  messages (state_of (main b ui2 (state_of (main b ui s)))) =
    Some (history ++ [user_turn query; assistant_turn no_documents_reply]) /\
  documents (state_of (main b ui2 (state_of (main b ui s)))) = Some [] /\
  Forall (fun e => is_query_call e = false)
    (trace_of (main b ui2 (state_of (main b ui s)))).
Proof.
  intros Hinit Hd Hm Hpath Hproc Hconv Hchunks Hpath2 Hproc2 Hconv2 Hchunks2
    Hin Hq.
  rewrite (main_clear_file_chunks ui s d ds Hinit Hd Hpath Hproc Hconv Hchunks).
  destruct (clear_file_chunks_effect s) as (Hd1 & Hm1 & Hc1 & Hp1 & He1 & _).
  set (s1 := state_of (clear_file_chunks b s)) in *.
  rewrite Hm in Hm1.
  assert (Hinit1 : initialized s1 = true).
  { destruct (initialized_fields s Hinit)
      as (pr & em & cm & ms & ds0 & Hpr & Hem & Hcm & _ & _).
    assert (Hem1 : embedding_manager s1 <> None)
      by (apply He1; rewrite Hem; discriminate).
    unfold initialized. rewrite Hp1, Hpr, Hc1, Hcm, Hm1, Hd1.
    destruct (embedding_manager s1); [reflexivity|contradiction]. }
  pose proof (chat_without_documents b s1 query history Hq Hd1 Hm1) as Hchat.
  rewrite (main_idle_sidebar b ui2 s1 Hinit1 Hpath2 Hproc2 Hconv2 Hchunks2).
  rewrite Hin, Hchat. unfold result_of, state_of, trace_of. simpl.
  split; [reflexivity|]. split; [reflexivity|]. split; [exact Hd1|].
  apply Forall_app. split; [apply idle_events_have_no_query_call|].
  repeat constructor.
Qed.

(** ** Runs that change nothing *)

Lemma main_without_batch (ui : ui_input) (s : state) :
  initialized s = true -> file_path ui = ""%string ->
  uploaded_files ui = [] -> large_files_list s = [] ->
  clear_conversation_button ui = false ->
  clear_file_chunks_button ui = false ->
  main b ui s =
    (result_of (chat b (chat_input ui) s),
     state_of (chat b (chat_input ui) s),
     idle_events s ++ trace_of (chat b (chat_input ui) s)).
Proof.
  intros Hinit Hpath Hup Hlf Hconv Hchunks.
  unfold main. unfold bind at 1. rewrite (initialize_initialized b s Hinit).
  simpl negb. cbv iota.
  unfold sidebar. rewrite Hpath, Hup, Hconv, Hchunks.
  unfold initialized in Hinit. unfold idle_events.
  destruct s as [[pr|] [em|] [cm|] [ms|] [ds|] lf]; try discriminate.
  unfold large_files_list in Hlf. simpl in Hlf.
  unfold validate_file_path, all_files_to_process, display_history.
  simpl String.eqb. cbv iota. simpl negb. cbv iota.
  destruct (chat b (chat_input ui) _) as [[r s'] tr] eqn:Hchat.
  unfold_script. simpl.
  destruct lf as [l|]; simpl in Hlf; subst; simpl;
    destruct ds as [|d ds]; simpl; rewrite Hchat; reflexivity.
Qed.

(** X16. Process Documents does nothing without files: when no file is
    uploaded and no path is entered, a run in which the button is pressed
    calls no collaborator for ingestion and leaves the chunk collection and
    the index alone; the run is the chat input's, after the chunk count and
    the history are shown. *)
Theorem process_without_files_is_ignored (ui : ui_input) (s : state) :
  initialized s = true -> file_path ui = ""%string ->
  uploaded_files ui = [] -> large_files_list s = [] ->
  clear_conversation_button ui = false ->
  clear_file_chunks_button ui = false ->
  main b ui s =
    (result_of (chat b (chat_input ui) s),
     state_of (chat b (chat_input ui) s),
     idle_events s ++ trace_of (chat b (chat_input ui) s)).
Proof. exact (main_without_batch ui s). Qed.

(** X17. A rerun of the script in which nothing is pressed and nothing is
    typed returns with the session exactly as it was; it only shows the
    chunk count, when there are chunks, and the history in order. *)
Theorem rerun_without_input_changes_nothing (ui : ui_input) (s : state) :
  initialized s = true -> file_path ui = ""%string ->
  process_button ui = false -> clear_conversation_button ui = false ->
  clear_file_chunks_button ui = false -> chat_input ui = None ->
  main b ui s = (Return tt, s, idle_events s).
Proof.
  intros Hinit Hpath Hproc Hconv Hchunks Hin.
  rewrite (main_idle_sidebar b ui s Hinit Hpath Hproc Hconv Hchunks), Hin.
  unfold chat, ret, result_of, state_of, trace_of. simpl.
  rewrite app_nil_r. reflexivity.
Qed.

(** X20. The two clear actions exist only while the session holds
    chunks: on a session whose chunk collection is empty, a run in which
    nothing is processed ignores both clear buttons, so the history is not
    emptied and [reset_conversation] and [clear_embeddings] are not
    called; the run is the chat input's. *)
Theorem clear_buttons_need_chunks (ui : ui_input) (s : state) :
  initialized s = true -> documents s = Some [] ->
  file_path ui = ""%string -> process_button ui = false ->
  main b ui s =
    (result_of (chat b (chat_input ui) s),
     state_of (chat b (chat_input ui) s),
     idle_events s ++ trace_of (chat b (chat_input ui) s)).
Proof.
  intros Hinit Hd Hpath Hproc.
  unfold main. unfold bind at 1. rewrite (initialize_initialized b s Hinit).
  simpl negb. cbv iota.
  unfold sidebar. rewrite Hpath, Hproc.
  unfold initialized in Hinit. unfold idle_events.
  destruct s as [[pr|] [em|] [cm|] [ms|] ds lf]; try discriminate.
  simpl in Hd. subst ds.
  unfold validate_file_path, all_files_to_process, display_history.
  simpl String.eqb. cbv iota. simpl negb. cbv iota.
  destruct (chat b (chat_input ui) _) as [[r s'] tr] eqn:Hchat.
  unfold_script. simpl.
  match goal with
  | |- context [truthy ?l] => destruct (truthy l)
  end; simpl; rewrite Hchat; reflexivity.
Qed.

(** ** The chat input with chunks *)

(** X18. A turn whose generation call returns appends the question and
    the returned text to the history, in that order, keeps the chat
    manager's new state and leaves the chunk collection alone.  With a
    retriever set, [generate_response] gets no chunks and [search] is not
    called; without one, [search] is called first and its chunks are
    passed on. *)
Theorem answered_turn_appends_question_and_answer
    (s : state) (query : string) (history : list message)
    (d : Doc) (ds : list Doc) (cm : CM) (docs : list Doc) (text : string) :
  query <> ""%string -> messages s = Some history ->
  documents s = Some (d :: ds) -> chat_manager s = Some cm ->
  retrieved b s query = Some docs ->
  snd (generate_response b cm query docs) = inr text ->
  result_of (chat b (Some query) s) = Return tt /\
  messages (state_of (chat b (Some query) s)) =
    Some (history ++ [user_turn query; assistant_turn text]) /\
  chat_manager (state_of (chat b (Some query) s)) =
    Some (fst (generate_response b cm query docs)) /\
  documents (state_of (chat b (Some query) s)) = Some (d :: ds) /\
  (forall em r,
     embedding_manager s = Some em -> retriever b em = Present (Some r) ->
     docs = [] /\
     trace_of (chat b (Some query) s) =
       [Chat_write "user" query; Call_generate_response query [];
        Chat_write "assistant" text]) /\
  (forall em,
     embedding_manager s = Some em ->
     (forall r, retriever b em <> Present (Some r)) ->
     trace_of (chat b (Some query) s) =
       [Chat_write "user" query; Call_search query;
        Call_generate_response query docs; Chat_write "assistant" text]).
Proof.
  intros Hq Hm Hd Hcm Hret Hgen. apply String.eqb_neq in Hq.
  unfold chat. rewrite Hq. unfold retrieved in Hret.
  destruct s as [pr [em|] cm' ms ds' lf]; simpl in Hm, Hd, Hcm, Hret;
    [|discriminate].
  subst. unfold append_message, respond, set_messages. unfold_script. simpl.
  assert (finish : forall (P1 P2 P3 P4 P5 P6 : Prop),
            P1 -> P2 -> P3 -> P4 -> P5 -> P6 ->
            P1 /\ P2 /\ P3 /\ P4 /\ P5 /\ P6) by tauto.
  destruct (retriever b em) as [|[r|]] eqn:Hr; simpl.
  - destruct (search b em query) as [em' [e'|docs']]; simpl in *;
      [discriminate|]. injection Hret as ->.
    destruct (generate_response b cm query docs) as [cm' [e'|text']];
      simpl in *; [discriminate|]. injection Hgen as ->.
    rewrite <- app_assoc.
    apply finish; try reflexivity.
    intros em0 r0 Hem Hr0. injection Hem as <-. congruence.
  - injection Hret as <-.
    destruct (generate_response b cm query []) as [cm' [e'|text']];
      simpl in *; [discriminate|]. injection Hgen as ->.
    rewrite <- app_assoc.
    apply finish; try reflexivity.
    + intros em0 r0 _ _. split; reflexivity.
    + intros em0 Hem Hno. injection Hem as <-.
      exfalso. exact (Hno r Hr).
  - destruct (search b em query) as [em' [e'|docs']]; simpl in *;
      [discriminate|]. injection Hret as ->.
    destruct (generate_response b cm query docs) as [cm' [e'|text']];
      simpl in *; [discriminate|]. injection Hgen as ->.
    rewrite <- app_assoc.
    apply finish; try reflexivity.
    intros em0 r0 Hem Hr0. injection Hem as <-. congruence.
Qed.

(** X19. Without a retriever, a turn whose [search] call raises ends with
    that exception before any generation call: the history holds the
    earlier turns and the question, and [generate_response] is not
    called. *)
Theorem retrieval_failure_skips_generation
    (s : state) (query : string) (history : list message)
    (d : Doc) (ds : list Doc) (em : EM) (e : exn) :
  query <> ""%string -> messages s = Some history ->
  documents s = Some (d :: ds) -> embedding_manager s = Some em ->
  (forall r, retriever b em <> Present (Some r)) ->
  snd (search b em query) = inl e ->
  result_of (chat b (Some query) s) = Raise e /\
  messages (state_of (chat b (Some query) s)) =
    Some (history ++ [user_turn query]) /\
  trace_of (chat b (Some query) s) =
    [Chat_write "user" query; Call_search query].
Proof.
  intros Hq Hm Hd Hem Hno Hs. apply String.eqb_neq in Hq.
  unfold chat. rewrite Hq.
  destruct s as [pr em' cm ms ds' lf]; simpl in Hm, Hd, Hem. subst.
  unfold append_message, respond, set_messages. unfold_script. simpl.
  destruct (retriever b em) as [|[r|]] eqn:Hr; simpl;
    try (exfalso; exact (Hno r eq_refl));
    destruct (search b em query) as [em1 [e'|docs']]; simpl in *;
    try discriminate; injection Hs as ->; repeat split.
Qed.

End FurtherProperties.

(** * The further properties at concrete sessions *)

Lemma initialize_at_new_session :
  (Config_is_valid (scenario_backend working) = true \/
   chat_manager empty_session <> None) /\
  result_of (initialize_session_state (scenario_backend working) empty_session)
    = Return true /\
  state_of (initialize_session_state (scenario_backend working) empty_session)
    = fresh_session.
Proof.
  assert (H : Config_is_valid (scenario_backend working) = true \/
              chat_manager empty_session <> None) by (left; reflexivity).
  destruct (initialize_fills_absent_keys (scenario_backend working)
              empty_session H) as (Hr & _ & Hs & _).
  split; [exact H|]. split; [exact Hr|exact Hs].
Defined.

Lemma initialize_at_new_session_without_key :
  Config_is_valid (scenario_backend no_credential) = false /\
  chat_manager empty_session = None /\
  initialize_session_state (scenario_backend no_credential) empty_session =
    (Return false,
     {| processor := Some tt; embedding_manager := Some [];
        chat_manager := None; messages := None; documents := None;
        large_files := None |},
     [St_error Missing_api_key]).
Proof.
  split; [reflexivity|]. split; [reflexivity|].
  exact (initialize_without_credential_is_partial
           (scenario_backend no_credential) empty_session eq_refl eq_refl).
Defined.

Lemma extraction_error_at_second_file :
  Forall (fun g => ingests (scenario_backend corrupt_edge) loaded_session g
                   = true) [Upload report_pdf] /\
  process_document (scenario_backend corrupt_edge) (Upload edge_pdf) =
    inl (LibraryError "PdfReadError") /\
  process_documents (scenario_backend corrupt_edge)
    ([Upload report_pdf] ++ Upload edge_pdf :: [Path "/data/big.pdf"])
    loaded_session =
    (Return false, loaded_session,
     [Call_process_document (Upload report_pdf);
      Call_process_document (Upload edge_pdf);
      St_error (Error_processing (LibraryError "PdfReadError"))]).
Proof.
  assert (Hpre : Forall (fun g => ingests (scenario_backend corrupt_edge)
                                    loaded_session g = true)
                   [Upload report_pdf])
    by (constructor; [reflexivity|constructor]).
  assert (Hle : 2 * GiB <= max_size) by (unfold GiB, max_size; lia).
  split; [exact Hpre|]. split; [reflexivity|].
  apply (extraction_error_aborts_batch (scenario_backend corrupt_edge)
           loaded_session [Upload report_pdf] [Path "/data/big.pdf"]
           (Upload edge_pdf) (2 * GiB) (LibraryError "PdfReadError") Hpre);
    [discriminate|reflexivity|exact Hle|reflexivity|reflexivity].
Defined.

Lemma unreadable_path_at_second_file :
  Forall (fun g => ingests (scenario_backend working) loaded_session g = true)
    [Upload report_pdf] /\
  os_path_getsize (scenario_backend working) "/gone.pdf" =
    inl (OSError "/gone.pdf") /\
  process_documents (scenario_backend working)
    ([Upload report_pdf] ++ Path "/gone.pdf" :: [Upload edge_pdf])
    loaded_session =
    (Return false, loaded_session,
     [Call_process_document (Upload report_pdf);
      St_error (Error_processing (OSError "/gone.pdf"))]).
Proof.
  assert (Hpre : Forall (fun g => ingests (scenario_backend working)
                                    loaded_session g = true)
                   [Upload report_pdf])
    by (constructor; [reflexivity|constructor]).
  split; [exact Hpre|]. split; [reflexivity|].
  apply (unreadable_path_aborts_batch (scenario_backend working)
           loaded_session [Upload report_pdf] [Upload edge_pdf] "/gone.pdf"
           (OSError "/gone.pdf") Hpre).
  left. reflexivity.
Defined.

Lemma successful_ingestion_trace_at_two_files :
  result_of (process_documents (scenario_backend working)
               [Upload report_pdf; Path "/data/big.pdf"] fresh_session) =
    Return true /\
  trace_of (process_documents (scenario_backend working)
              [Upload report_pdf; Path "/data/big.pdf"] fresh_session) =
    [Call_process_document (Upload report_pdf);
     Call_process_document (Path "/data/big.pdf");
     Call_create_embeddings ["report.pdf"%string; "/data/big.pdf"%string];
     Call_set_retriever;
     St_success (Processed_chunks 2)].
Proof.
  assert (Hok : result_of (process_documents (scenario_backend working)
                  [Upload report_pdf; Path "/data/big.pdf"] fresh_session) =
                Return true) by reflexivity.
  split; [exact Hok|].
  exact (proj2 (successful_ingestion_trace (scenario_backend working)
                  fresh_session [Upload report_pdf; Path "/data/big.pdf"]
                  Hok)).
Defined.


Lemma history_grows_at_one_question :
  clear_conversation_button (ask "Why?") = false /\
  exists suffix,
    messages_list (state_of (main (scenario_backend working) (ask "Why?")
                               session_in_conversation)) =
      messages_list session_in_conversation ++ suffix.
Proof.
  split; [reflexivity|].
  exact (history_is_append_only (scenario_backend working) (ask "Why?")
           session_in_conversation eq_refl).
Defined.

Lemma documents_kept_at_one_question :
  process_button (ask "Why?") = false /\
  clear_file_chunks_button (ask "Why?") = false /\
  documents_list (state_of (main (scenario_backend generator_down)
                              (ask "Why?") session_in_conversation)) =
    ["/data/big.pdf"%string].
Proof.
  split; [reflexivity|]. split; [reflexivity|].
  exact (documents_change_only_by_process_or_clear
           (scenario_backend generator_down) (ask "Why?")
           session_in_conversation eq_refl eq_refl).
Defined.

Lemma calls_follow_the_widgets_at_two_runs :
  Forall (fun e => is_ingestion_call e = false)
    (trace_of (main (scenario_backend working) (ask "Why?")
                 session_in_conversation)) /\
  Forall (fun e => is_query_call e = false)
    (trace_of (main (scenario_backend working) upload_and_process
                 session_in_conversation)).
Proof.
  split.
  - exact (proj1 (calls_follow_the_widgets (scenario_backend working)
                    (ask "Why?") session_in_conversation) eq_refl).
  - exact (proj2 (calls_follow_the_widgets (scenario_backend working)
                    upload_and_process session_in_conversation) eq_refl).
Defined.

Lemma entered_paths_at_two_runs :
  Forall (fun p => is_pdf_path p = true) (large_files_list empty_session) /\
  Forall (fun p => is_pdf_path p = true)
    (large_files_list
       (fst (runs (scenario_backend working)
               [reprocess_entered_path; reprocess_entered_path]
               empty_session))).
Proof.
  assert (H : Forall (fun p => is_pdf_path p = true)
                (large_files_list empty_session)) by constructor.
  split; [exact H|].
  exact (entered_paths_are_pdf_paths (scenario_backend working)
           [reprocess_entered_path; reprocess_entered_path] empty_session H).
Defined.

Lemma clear_file_chunks_in_conversation :
  documents (state_of (clear_file_chunks (scenario_backend working)
                         session_in_conversation)) = Some [] /\
  messages (state_of (clear_file_chunks (scenario_backend working)
                        session_in_conversation)) =
    messages session_in_conversation /\
  embedding_manager (state_of (clear_file_chunks (scenario_backend working)
                                 session_in_conversation)) = Some [] /\
  embedding_manager (state_of (clear_file_chunks search_down_backend
                                 session_in_conversation)) =
    Some [("/data/big.pdf"%string, 1)].
Proof.
  destruct (clear_file_chunks_keeps_conversation (scenario_backend working)
              session_in_conversation) as (Hd & Hm & _ & _ & _ & Hpresent).
  destruct (clear_file_chunks_keeps_conversation search_down_backend
              session_in_conversation) as (_ & _ & _ & _ & Hmissing & _).
  split; [exact Hd|]. split; [exact Hm|]. split.
  - exact (proj1 (Hpresent VectorIndex.clear
                    [("/data/big.pdf"%string, 1)] eq_refl eq_refl)).
  - exact (proj1 (Hmissing eq_refl)).
Defined.

Lemma ask_after_clear_in_conversation :
  result_of (main (scenario_backend working) (ask "Why?")
               (state_of (main (scenario_backend working)
                            press_clear_file_chunks session_in_conversation)))
    = Return tt /\
  messages (state_of (main (scenario_backend working) (ask "Why?")
               (state_of (main (scenario_backend working)
                            press_clear_file_chunks session_in_conversation))))
    = Some [user_turn "What?"; assistant_turn "Paris.";
            user_turn "Why?"; assistant_turn no_documents_reply].
Proof.
  assert (Hq : "Why?"%string <> ""%string) by discriminate.
  destruct (ask_after_clear_file_chunks (scenario_backend working)
              press_clear_file_chunks (ask "Why?") session_in_conversation
              "/data/big.pdf"%string []
              [user_turn "What?"; assistant_turn "Paris."] "Why?"
              eq_refl eq_refl eq_refl eq_refl eq_refl eq_refl eq_refl
              eq_refl eq_refl eq_refl eq_refl eq_refl Hq)
    as (Hr & Hm & _ & _).
  split; [exact Hr|exact Hm].
Defined.

Lemma process_without_files_at_loaded_session :
  main (scenario_backend working) press_process_only session_with_report =
    (Return tt, session_with_report,
     [St_success (Chunks_in_memory 1)]).
Proof.
  exact (process_without_files_is_ignored (scenario_backend working)
           press_process_only session_with_report
           eq_refl eq_refl eq_refl eq_refl eq_refl eq_refl).
Defined.

Lemma rerun_in_conversation :
  main (scenario_backend working) idle_rerun session_in_conversation =
    (Return tt, session_in_conversation,
     [St_success (Chunks_in_memory 1);
      Chat_write "user" "What?"; Chat_write "assistant" "Paris."]).
Proof.
  exact (rerun_without_input_changes_nothing (scenario_backend working)
           idle_rerun session_in_conversation
           eq_refl eq_refl eq_refl eq_refl eq_refl eq_refl).
Defined.

Lemma answered_turn_at_one_question :
  retrieved (scenario_backend working) session_with_report "What?" = Some [] /\
  messages (state_of (chat (scenario_backend working) (Some "What?"%string)
                        session_with_report)) =
    Some [user_turn "What?"; assistant_turn "Paris."] /\
  trace_of (chat (scenario_backend working) (Some "What?"%string)
              session_with_report) =
    [Chat_write "user" "What?"; Call_generate_response "What?" [];
     Chat_write "assistant" "Paris."].
Proof.
  assert (Hq : "What?"%string <> ""%string) by discriminate.
  destruct (answered_turn_appends_question_and_answer
              (scenario_backend working) session_with_report "What?" []
              "report.pdf"%string [] tt [] "Paris."
              Hq eq_refl eq_refl eq_refl eq_refl eq_refl)
    as (_ & Hm & _ & _ & Hretr & _).
  split; [reflexivity|]. split; [exact Hm|].
  exact (proj2 (Hretr [("report.pdf"%string, 1)] tt eq_refl eq_refl)).
Defined.

Lemma retrieval_failure_at_one_question :
  snd (search search_down_backend [("report.pdf"%string, 1)] "What?") =
    inl (LibraryError "EmbeddingUnavailableError") /\
  result_of (chat search_down_backend (Some "What?"%string)
               session_with_report) =
    Raise (LibraryError "EmbeddingUnavailableError") /\
  trace_of (chat search_down_backend (Some "What?"%string)
              session_with_report) =
    [Chat_write "user" "What?"; Call_search "What?"].
Proof.
  assert (Hq : "What?"%string <> ""%string) by discriminate.
  assert (Hno : forall r : unit,
            retriever search_down_backend [("report.pdf"%string, 1)]
            <> Present (Some r)) by (intros r; discriminate).
  destruct (retrieval_failure_skips_generation search_down_backend
              session_with_report "What?" [] "report.pdf"%string []
              [("report.pdf"%string, 1)]
              (LibraryError "EmbeddingUnavailableError")
              Hq eq_refl eq_refl eq_refl Hno eq_refl) as (Hr & _ & Htr).
  split; [reflexivity|]. split; [exact Hr|exact Htr].
Defined.

Lemma clear_buttons_without_chunks :
  initialized fresh_session = true /\
  documents fresh_session = Some [] /\
  main (scenario_backend working) (press_both_clear_buttons "Why?")
    fresh_session =
    (Return tt,
     set_messages [user_turn "Why?"; assistant_turn no_documents_reply]
       fresh_session,
     [Chat_write "user" "Why?"; Chat_write "assistant" no_documents_reply]).
Proof.
  split; [reflexivity|]. split; [reflexivity|].
  exact (clear_buttons_need_chunks (scenario_backend working)
           (press_both_clear_buttons "Why?") fresh_session
           eq_refl eq_refl eq_refl eq_refl).
Defined.
